(** * The [edit_on_bitbucket] Sphinx extension

    A shallow embedding of [docs/sphinxext/edit_on_bitbucket.py] and the
    properties of its [doctree-read] callback.

    The callback mutates a docutils tree in place and may raise.  It is
    modelled as a state-and-exception computation over the tree; the
    Python runtime services it calls ([os.path.relpath], [__import__],
    [getattr], [inspect.getsourcelines]) are parameters of the model. *)

From Stdlib Require Import ZArith String Ascii List DecimalString.
From stdpp Require Import gmap strings list fin_maps.

Local Open Scope string_scope.
Local Open Scope list_scope.

(** ** Python string operations used by the extension *)

Module PyStr.

(** [s.endswith(suf)] *)
Fixpoint endswith (s suf : string) : bool :=
  if String.eqb s suf then true
  else match s with
       | EmptyString => false
       | String _ s' => endswith s' suf
       end.

(** [s.replace(a, b)] for one-character [a] and [b] *)
Fixpoint replace (a b : ascii) (s : string) : string :=
  match s with
  | EmptyString => EmptyString
  | String c s' => String (if Ascii.eqb c a then b else c) (replace a b s')
  end.

(** [s.split(sep)] for a one-character separator: never the empty list,
    [''.split('.')] is [['']]. *)
Fixpoint split (sep : ascii) (s : string) : list string :=
  match s with
  | EmptyString => [EmptyString]
  | String c s' =>
      if Ascii.eqb c sep then EmptyString :: split sep s'
      else match split sep s' with
           | [] => [String c EmptyString]
           | p :: ps => String c p :: ps
           end
  end.

(** ['%d' % z] *)
Definition fmt_d (z : Z) : string := NilZero.string_of_int (Z.to_int z).

(** Truth value of a string: [''] is false. *)
Definition truthy (s : string) : bool := negb (String.eqb s "").

End PyStr.

(** ** Regular expressions and [re.match]

    The skip pattern is kept in parsed form.  [re_match] is Python's
    [re.match]: the pattern has to match at the first character of the
    subject, and may stop anywhere.  ['.'] matches every character except
    a newline. *)

Inductive regex : Type :=
| Void
| Eps
| Chr (c : ascii)
| Dot
| Cat (r1 r2 : regex)
| Alt (r1 r2 : regex)
| Star (r : regex).

Definition newline : ascii := "010"%char.

Fixpoint nullable (r : regex) : bool :=
  match r with
  | Void => false
  | Eps => true
  | Chr _ => false
  | Dot => false
  | Cat r1 r2 => nullable r1 && nullable r2
  | Alt r1 r2 => nullable r1 || nullable r2
  | Star _ => true
  end.

Fixpoint deriv (a : ascii) (r : regex) : regex :=
  match r with
  | Void => Void
  | Eps => Void
  | Chr c => if Ascii.eqb a c then Eps else Void
  | Dot => if Ascii.eqb a newline then Void else Eps
  | Cat r1 r2 =>
      if nullable r1 then Alt (Cat (deriv a r1) r2) (deriv a r2)
      else Cat (deriv a r1) r2
  | Alt r1 r2 => Alt (deriv a r1) (deriv a r2)
  | Star r1 => Cat (deriv a r1) (Star r1)
  end.

(** [re.match(r, s)] as a truth value: some prefix of [s] is matched. *)
Fixpoint re_match (r : regex) (s : string) : bool :=
  nullable r ||
  match s with
  | EmptyString => false
  | String a s' => re_match (deriv a r) s'
  end.

(** [re.search(r, s)] as a truth value: a match starting anywhere. *)
Fixpoint re_search (r : regex) (s : string) : bool :=
  re_match r s ||
  match s with
  | EmptyString => false
  | String _ s' => re_search r s'
  end.

(** The language of a pattern: the strings it matches exactly. *)
Inductive matches : regex -> string -> Prop :=
| m_eps : matches Eps ""
| m_chr c : matches (Chr c) (String c "")
| m_dot c : c <> newline -> matches Dot (String c "")
| m_cat r1 r2 s1 s2 :
    matches r1 s1 -> matches r2 s2 -> matches (Cat r1 r2) (s1 +:+ s2)
| m_alt_l r1 r2 s : matches r1 s -> matches (Alt r1 r2) s
| m_alt_r r1 r2 s : matches r2 s -> matches (Alt r1 r2) s
| m_star_nil r : matches (Star r) ""
| m_star_app r s1 s2 :
    matches r s1 -> matches (Star r) s2 -> matches (Star r) (s1 +:+ s2).

(** ** docutils nodes *)

Inductive tagname : Type :=
| document | section | paragraph | only | reference | inline | raw
| desc | desc_signature | desc_content
| other_tag (name : string).

Global Instance tagname_eq_dec : EqDecision tagname.
Proof. solve_decision. Defined.

(** A node is a [Text] leaf or an [Element].  An element has the list
    attribute ['classes'], its string attributes, and its children. *)
Unset Elimination Schemes.
Inductive node : Type :=
| Text (data : string)
| Element (tag : tagname) (classes : list string)
          (attrs : gmap string string) (children : list node).
Set Elimination Schemes.

(** Induction over a tree, with the hypothesis for every child. *)
Fixpoint node_tree_ind (P : node -> Prop)
    (HText : forall data, P (Text data))
    (HElement : forall tag cls attrs ch,
        Forall P ch -> P (Element tag cls attrs ch))
    (n : node) : P n :=
  match n with
  | Text data => HText data
  | Element tag cls attrs ch =>
      HElement tag cls attrs ch
        ((fix children_ind (l : list node) : Forall P l :=
            match l with
            | [] => List.Forall_nil P
            | c :: l' =>
                List.Forall_cons P c l' (node_tree_ind P HText HElement c) (children_ind l')
            end) ch)
  end.

Definition node_children (n : node) : list node :=
  match n with
  | Text _ => []
  | Element _ _ _ ch => ch
  end.

Definition node_tag (n : node) : option tagname :=
  match n with
  | Text _ => None
  | Element tag _ _ _ => Some tag
  end.

(** [n.get(key)]: [None] for a missing attribute. *)
Definition node_get (key : string) (n : node) : option string :=
  match n with
  | Text _ => None
  | Element _ _ attrs _ => attrs !! key
  end.

(** The node reached from [n] by following child indices. *)
Fixpoint get_node (p : list nat) (n : node) : option node :=
  match p with
  | [] => Some n
  | i :: p' =>
      match node_children n !! i with
      | Some c => get_node p' c
      | None => None
      end
  end.

(** The paths of the children's described objects, the first child being
    the [i]-th. *)
Definition traverse_children (traverse : node -> list (list nat))
  : nat -> list node -> list (list nat) :=
  fix go (i : nat) (l : list node) : list (list nat) :=
    match l with
    | [] => []
    | c :: l' => (cons i <$> traverse c) ++ go (S i) l'
    end.

(** [n.traverse(addnodes.desc)]: the described objects of the tree in
    document order, the node itself included, each given by its path from
    [n].  The list is complete before the caller's loop starts. *)
Fixpoint traverse_desc (n : node) : list (list nat) :=
  match n with
  | Text _ => []
  | Element tag _ _ ch =>
      (if bool_decide (tag = desc) then [[]] else []) ++
      traverse_children traverse_desc 0 ch
  end.

(** In-place update of the node at a path. *)
Fixpoint update_at (p : list nat) (f : node -> node) (n : node) : node :=
  match p with
  | [] => f n
  | i :: p' =>
      match n with
      | Text s => Text s
      | Element tag cls attrs ch =>
          Element tag cls attrs (alter (update_at p' f) i ch)
      end
  end.

(** [node.update_basic_atts({'classes': cs})]: each value is appended
    unless it is already there. *)
Fixpoint append_classes (cls cs : list string) : list string :=
  match cs with
  | [] => cls
  | c :: cs' =>
      append_classes (if bool_decide (c ∈ cls) then cls else cls ++ [c]) cs'
  end.

(** [TextElement(rawsource, text, *children)]: a non-empty [text] becomes
    a leading [Text] child. *)
Definition text_children (text : string) (children : list node) : list node :=
  if String.eqb text "" then children else Text text :: children.

(** ** Exceptions and results *)

Inductive exn : Type :=
| ValueError (msg : string)
| IndexError
| AttributeError
| OtherError (name : string).

Inductive result (A : Type) : Type :=
| Raise (e : exn)
| Return (a : A).
Arguments Raise {A} e.
Arguments Return {A} a.

(** ** The callback's computations: the document tree is the state *)

Definition M (A : Type) : Type := node -> result A * node.

Definition ret {A} (a : A) : M A := fun t => (Return a, t).

Definition raise {A} (e : exn) : M A := fun t => (Raise e, t).

Definition bind {A B} (m : M A) (k : A -> M B) : M B :=
  fun t =>
    match m t with
    | (Raise e, t') => (Raise e, t')
    | (Return a, t') => k a t'
    end.

Definition lift {A} (r : result A) : M A := fun t => (r, t).

Definition get_tree : M node := fun t => (Return t, t).

Definition modify (f : node -> node) : M unit := fun t => (Return tt, f t).

Declare Scope callback_scope.
Delimit Scope callback_scope with callback.
Notation "x <- m ;; k" := (bind m (fun x => k))
  (at level 100, m at next level, right associativity) : callback_scope.
Notation "m ;;; k" := (bind m (fun _ => k))
  (at level 100, right associativity) : callback_scope.

(** ** Configuration *)

Record config : Type := {
  edit_on_bitbucket_project : string;
  edit_on_bitbucket_source_root : string;
  edit_on_bitbucket_doc_root : string;
  edit_on_bitbucket_docstring_message : string;
  edit_on_bitbucket_page_message : string;
  edit_on_bitbucket_help_message : string;
  edit_on_bitbucket_skip_regex : regex
}.

(** The parsed form of the default skip pattern ['_.*']. *)
Definition default_skip_regex : regex := Cat (Chr "_") (Star Dot).

(** The configuration values registered by [setup]. *)
Definition setup : config := {|
  edit_on_bitbucket_project := "REQUIRED";
  edit_on_bitbucket_source_root := "lib";
  edit_on_bitbucket_doc_root := "doc";
  edit_on_bitbucket_docstring_message := "[bitbucket]";
  edit_on_bitbucket_page_message := "[edit this page on bitbucket]";
  edit_on_bitbucket_help_message := "Push the Edit button on the next page";
  edit_on_bitbucket_skip_regex := default_skip_regex
|}.

(** [app.config] and [app.builder.srcdir] *)
Record application : Type := {
  app_config : config;
  srcdir : string
}.

(** ** The Python runtime the extension calls into

    [None] in [option pyobj] is Python's [None]; [Raise] is any exception
    of the call. *)
Record runtime : Type := {
  pyobj : Type;
  (** [os.path.relpath(path, start)] *)
  relpath : option string -> string -> result string;
  (** [__import__(modname); sys.modules[modname]] *)
  py_import : string -> result (option pyobj);
  (** [getattr(obj, part)] *)
  py_getattr : option pyobj -> string -> result (option pyobj);
  (** [inspect.getsourcelines(obj)] *)
  getsourcelines : pyobj -> result (list string * Z)
}.

(** ** The extension *)

Section Extension.

Variable rt : runtime.

(** Follow [name.split('.')] through [getattr]. *)
Fixpoint getattr_path (obj : option (pyobj rt)) (parts : list string)
  : result (option (pyobj rt)) :=
  match parts with
  | [] => Return obj
  | part :: parts' =>
      match py_getattr rt obj part with
      | Raise e => Raise e
      | Return o => getattr_path o parts'
      end
  end.

(** [import_object(modname, name)]: the object, or [None] when anything in
    the [try] block raises.  [name] is the ['fullname'] attribute, which
    may be absent ([None.split] raises inside the [try]). *)
Definition import_object (modname : string) (name : option string)
  : option (pyobj rt) :=
  match py_import rt modname with
  | Raise _ => None
  | Return mod_ =>
      match name with
      | None => None
      | Some name =>
          match getattr_path mod_ (PyStr.split "." name) with
          | Raise _ => None
          | Return obj => obj
          end
      end
  end.

(** Lines 125-132: [anchor] stays [None] unless [obj] is not [None] and
    [inspect.getsourcelines] returns. *)
Definition source_anchor (obj : option (pyobj rt)) : option string :=
  match obj with
  | None => None
  | Some o =>
      match getsourcelines rt o with
      | Raise _ => None
      | Return (_, lineno) => Some ("#cl-" +:+ PyStr.fmt_d lineno)
      end
  end.

(** Lines 76-77 and 79-80. *)
Definition normalize_root (root : string) : string :=
  if negb (String.eqb root "") && negb (PyStr.endswith root "/")
  then root +:+ "/"
  else root.

(** Lines 81-82. *)
Definition base_url (project : string) : string :=
  "http://bitbucket.org/" +:+ project +:+ "/src/tip/".

Definition only_html (children : list node) : node :=
  Element only [] {[ "expr" := "html" ]} children.

Definition edit_reference (help path : string) (children : list node) : node :=
  Element reference [] (<[ "reftitle" := help ]> {[ "refuri" := path ]}) children.

(** Lines 91-98: the paragraph holding the "edit this page" link. *)
Definition page_para (cfg : config) (path : string) : node :=
  Element paragraph (append_classes [] ["edit-on-bitbucket-para"]) ∅
    [only_html
       [edit_reference (edit_on_bitbucket_help_message cfg) path
          [Element inline ["edit-on-bitbucket"] ∅
             (text_children (edit_on_bitbucket_page_message cfg) [])]]].

(** Lines 103-105. *)
Definition edit_section (para : node) : node :=
  Element section (append_classes [] ["edit-section"]) ∅ [para].

(** Lines 136-143: the link attached to a signature. *)
Definition docstring_link (cfg : config) (path : string) : node :=
  only_html
    [edit_reference (edit_on_bitbucket_help_message cfg) path
       [Element inline ["edit-on-bitbucket"; "viewcode-link"] ∅
          (text_children ""
             [Element raw [] {[ "format" := "html" ]} (text_children "&nbsp;" []);
              Text (edit_on_bitbucket_docstring_message cfg)])]].

(** Lines 134-135. *)
Definition docstring_path (url source_root modname anchor : string) : string :=
  url +:+ source_root +:+ PyStr.replace "." "/" modname +:+ ".py" +:+ anchor.

(** [node += child] *)
Definition append_child (child : node) (n : node) : node :=
  match n with
  | Text s => Text s
  | Element tag cls attrs ch => Element tag cls attrs (ch ++ [child])
  end.

(** [node[-1] += child], for a node that has a last child. *)
Definition append_to_last (child : node) (n : node) : node :=
  match n with
  | Text s => Text s
  | Element tag cls attrs ch =>
      match last ch with
      | Some l => Element tag cls attrs (removelast ch ++ [append_child child l])
      | None => n
      end
  end.

(** [doctree[-1]]: [IndexError] on a tree without children. *)
Definition last_child : M node :=
  fun t =>
    match last (node_children t) with
    | Some l => (Return l, t)
    | None => (Raise IndexError, t)
    end.

(** [n.attributes['classes']]: a [Text] node has no [attributes]. *)
Definition attributes_classes (n : node) : result (list string) :=
  match n with
  | Text _ => Raise AttributeError
  | Element _ cls _ _ => Return cls
  end.

(** Lines 88-106: the "edit this page" link. *)
Definition page_edit_link (app : application) (url doc_root : string) : M unit :=
  (let cfg := app_config app in
   doctree <- get_tree ;;
   doc_path <- lift (relpath rt (node_get "source" doctree) (srcdir app)) ;;
   if negb (re_match (edit_on_bitbucket_skip_regex cfg) doc_path) then
     let path := url +:+ doc_root +:+ doc_path in
     let para := page_para cfg path in
     tail <- last_child ;;
     cls <- lift (attributes_classes tail) ;;
     if bool_decide ("edit-section" ∈ cls) then modify (append_to_last para)
     else modify (append_child (edit_section para))
   else ret tt)%callback.

(** Lines 124-144: resolve the object and, when its source line is known,
    attach the link to the signature. *)
Definition attach_link (cfg : config) (url source_root : string)
    (modname : string) (fullname : option string) (signode : node) : node :=
  let obj := import_object modname fullname in
  match source_anchor obj with
  | Some anchor =>
      if PyStr.truthy anchor then
        let path := docstring_path url source_root modname anchor in
        append_child (docstring_link cfg path) signode
      else signode
  | None => signode
  end.

(** Lines 114-144: one iteration of the loop over the children of a
    described object.  [names] is the set of full names seen so far. *)
Definition link_signode (cfg : config) (url source_root : string)
    (names : gset (option string)) (signode : node)
  : gset (option string) * node :=
  match signode with
  | Element desc_signature _ attrs _ =>
      match attrs !! "module" with
      | None => (names, signode)
      | Some modname =>
          if negb (PyStr.truthy modname) then (names, signode)
          else
            let fullname := attrs !! "fullname" in
            if bool_decide (fullname ∈ names) then (names, signode)
            else
              ({[ fullname ]} ∪ names,
               attach_link cfg url source_root modname fullname signode)
      end
  | _ => (names, signode)
  end.

(** Lines 113-144: the loop over the children of one described object. *)
Fixpoint link_signodes (cfg : config) (url source_root : string)
    (names : gset (option string)) (signodes : list node) : list node :=
  match signodes with
  | [] => []
  | signode :: rest =>
      let '(names', signode') := link_signode cfg url source_root names signode in
      signode' :: link_signodes cfg url source_root names' rest
  end.

(** Lines 110-144: the body of the outer loop, for one described
    object. *)
Definition visit_desc (cfg : config) (url source_root : string)
    (objnode : node) : node :=
  match objnode with
  | Text s => Text s
  | Element tag cls attrs ch =>
      if bool_decide (attrs !! "domain" = Some "py")
      then Element tag cls attrs (link_signodes cfg url source_root ∅ ch)
      else objnode
  end.

(** The outer loop over a list of described objects, each one updated in
    place. *)
Definition visit_all (cfg : config) (url source_root : string)
    (objnodes : list (list nat)) (doctree : node) : node :=
  foldl (fun t p => update_at p (visit_desc cfg url source_root) t)
        doctree objnodes.

(** Lines 109-144: the described objects found by [traverse] are visited
    in document order. *)
Definition docstring_links (cfg : config) (url source_root : string)
    (doctree : node) : node :=
  visit_all cfg url source_root (traverse_desc doctree) doctree.

Definition sentinel_message : string :=
  "The edit_on_bitbucket_project configuration variable must be provided in the conf.py".

(** [doctree_read(app, doctree)] *)
Definition doctree_read (app : application) : M unit :=
  (let cfg := app_config app in
   if String.eqb (edit_on_bitbucket_project cfg) "REQUIRED" then
     raise (ValueError sentinel_message)
   else
     let source_root := normalize_root (edit_on_bitbucket_source_root cfg) in
     let doc_root := normalize_root (edit_on_bitbucket_doc_root cfg) in
     let url := base_url (edit_on_bitbucket_project cfg) in
     page_edit_link app url doc_root ;;;
     modify (docstring_links cfg url source_root))%callback.

End Extension.


(** ** Notions used to state the properties *)

(** The module and full name of a child that reaches the [names] test of
    the loop: a signature whose ['module'] attribute is a non-empty
    string. *)
Definition link_target (n : node) : option (string * option string) :=
  match n with
  | Element desc_signature _ attrs _ =>
      match attrs !! "module" with
      | Some modname =>
          if PyStr.truthy modname then Some (modname, attrs !! "fullname")
          else None
      | None => None
      end
  | _ => None
  end.

(** A described object of the Python domain. *)
Definition is_py_desc (tag : tagname) (attrs : gmap string string) : bool :=
  bool_decide (tag = desc) && bool_decide (attrs !! "domain" = Some "py").

(** The docstring pass as a function of the tree: every described object
    of the Python domain has the loop run over its children.
    [docstring_links_link_tree] shows that this is what the traversal
    computes. *)
Fixpoint link_tree (rt : runtime) (cfg : config) (url source_root : string)
    (n : node) : node :=
  match n with
  | Text s => Text s
  | Element tag cls attrs ch =>
      let ch' := link_tree rt cfg url source_root <$> ch in
      Element tag cls attrs
        (if is_py_desc tag attrs
         then link_signodes rt cfg url source_root ∅ ch'
         else ch')
  end.

(** The set [names] once the loop has run over [signodes]. *)
Fixpoint names_after (names : gset (option string)) (signodes : list node)
  : gset (option string) :=
  match signodes with
  | [] => names
  | signode :: rest =>
      names_after
        (match link_target signode with
         | Some (_, fullname) => {[ fullname ]} ∪ names
         | None => names
         end) rest
  end.

(** The three ways in which a symbol is not resolved. *)
Inductive unresolved (rt : runtime) (modname : string) (fullname : option string)
  : Prop :=
| import_failure e :
    py_import rt modname = Raise e ->
    unresolved rt modname fullname
| missing_attribute mod_ name e :
    py_import rt modname = Return mod_ ->
    fullname = Some name ->
    getattr_path rt mod_ (PyStr.split "." name) = Raise e ->
    unresolved rt modname fullname
| introspection_failure obj e :
    import_object rt modname fullname = Some obj ->
    getsourcelines rt obj = Raise e ->
    unresolved rt modname fullname.

(** Two nodes with the same tag, classes and attributes. *)
Definition same_head (a b : node) : Prop :=
  match a, b with
  | Text s, Text s' => s = s'
  | Element tag cls attrs _, Element tag' cls' attrs' _ =>
      tag = tag' /\ cls = cls' /\ attrs = attrs'
  | _, _ => False
  end.

(** ** A small runtime and trees to run the callback on *)

Module Sample.

Inductive obj : Type :=
| Mod
| Func (lineno : Z)
| Builtin.

(** The path below [start], for a path inside it. *)
Fixpoint strip_prefix (start path : string) : option string :=
  match start, path with
  | EmptyString, String "/" rest => Some rest
  | String a start', String b path' =>
      if Ascii.eqb a b then strip_prefix start' path' else None
  | _, _ => None
  end.

Definition rt : runtime := {|
  pyobj := obj;
  relpath := fun path start =>
    match path with
    | None => Raise (ValueError "no path specified")
    | Some p =>
        match strip_prefix start p with
        | Some rel => Return rel
        | None => Return p
        end
    end;
  py_import := fun modname =>
    if String.eqb modname "pkg.spec" then Return (Some Mod)
    else Raise (OtherError "ImportError");
  py_getattr := fun o part =>
    match o with
    | Some Mod =>
        if String.eqb part "fit" then Return (Some (Func 42))
        else if String.eqb part "version" then Return None
        else if String.eqb part "len" then Return (Some Builtin)
        else Raise AttributeError
    | _ => Raise AttributeError
    end;
  getsourcelines := fun o =>
    match o with
    | Func lineno => Return (["def fit():"], lineno)
    | Mod => Return ([], 0%Z)
    | Builtin => Raise (OtherError "TypeError")
    end
|}.

Definition cfg : config := {|
  edit_on_bitbucket_project := "user/proj";
  edit_on_bitbucket_source_root := "lib";
  edit_on_bitbucket_doc_root := "";
  edit_on_bitbucket_docstring_message := "[bitbucket]";
  edit_on_bitbucket_page_message := "[edit this page on bitbucket]";
  edit_on_bitbucket_help_message := "Push the Edit button on the next page";
  edit_on_bitbucket_skip_regex := default_skip_regex
|}.

Definition app : application := {| app_config := cfg; srcdir := "/docs" |}.

(** The application with the configuration [setup] registers. *)
Definition unset_app : application := {| app_config := setup; srcdir := "/docs" |}.

Definition signature (modname fullname : string) : node :=
  Element desc_signature []
    (<[ "module" := modname ]> {[ "fullname" := fullname ]}) [Text fullname].

(** A signature without a ['module'] attribute. *)
Definition bare_signature (fullname : string) : node :=
  Element desc_signature [] {[ "fullname" := fullname ]} [Text fullname].

Definition py_desc (children : list node) : node :=
  Element desc [] {[ "domain" := "py" ]} children.

Definition page (source : string) (children : list node) : node :=
  Element document [] {[ "source" := source ]} children.

Definition heading (title : string) : node :=
  Element section [] empty [Text title].

(** The tree of an empty source file. *)
Definition empty_page : node := page "/docs/index.rst" [].

Definition api_page (signodes : list node) : node :=
  page "/docs/api.rst"
    [Element section [] empty [Text "API"; py_desc signodes]].

(** A pattern that matches an underscore, wherever it is tried. *)
Definition underscore : regex := Chr "_".

Definition underscore_app : application := {|
  app_config := {|
    edit_on_bitbucket_project := "user/proj";
    edit_on_bitbucket_source_root := "lib";
    edit_on_bitbucket_doc_root := "doc";
    edit_on_bitbucket_docstring_message := "[bitbucket]";
    edit_on_bitbucket_page_message := "[edit this page on bitbucket]";
    edit_on_bitbucket_help_message := "Push the Edit button on the next page";
    edit_on_bitbucket_skip_regex := underscore
  |};
  srcdir := "/docs"
|}.

End Sample.

(** The configuration of a project that sets the project identifier in
    its [conf.py] and keeps every other value [setup] registers. *)
Definition setup_with_project (project : string) : config := {|
  edit_on_bitbucket_project := project;
  edit_on_bitbucket_source_root := edit_on_bitbucket_source_root setup;
  edit_on_bitbucket_doc_root := edit_on_bitbucket_doc_root setup;
  edit_on_bitbucket_docstring_message := edit_on_bitbucket_docstring_message setup;
  edit_on_bitbucket_page_message := edit_on_bitbucket_page_message setup;
  edit_on_bitbucket_help_message := edit_on_bitbucket_help_message setup;
  edit_on_bitbucket_skip_regex := edit_on_bitbucket_skip_regex setup
|}.

(** A string without the character [c]. *)
Fixpoint lacks (c : ascii) (s : string) : bool :=
  match s with
  | EmptyString => true
  | String a s' => negb (Ascii.eqb a c) && lacks c s'
  end.

(** The sample runtime with nothing to import. *)
Definition offline_rt : runtime := {|
  pyobj := Sample.obj;
  relpath := relpath Sample.rt;
  py_import := fun _ => Raise (OtherError "ImportError");
  py_getattr := fun _ _ => Raise AttributeError;
  getsourcelines := fun _ => Raise (OtherError "IOError")
|}.
(** * Properties *)

(** ** Strings *)

#[local] Arguments String.append !_ _ : simpl nomatch.

Lemma append_nil_r (s : string) : s +:+ "" = s.
Proof. induction s as [|c s IH]; simpl; [reflexivity | now rewrite IH]. Qed.

Lemma append_assoc (s1 s2 s3 : string) : (s1 +:+ s2) +:+ s3 = s1 +:+ (s2 +:+ s3).
Proof. induction s1 as [|c s1 IH]; simpl; [reflexivity | now rewrite IH]. Qed.

Lemma append_eq_nil (s1 s2 : string) : s1 +:+ s2 = "" -> s1 = "" /\ s2 = "".
Proof. destruct s1; simpl; [auto | discriminate]. Qed.

Lemma append_eq_cons (s1 s2 s : string) (a : ascii) :
  s1 +:+ s2 = String a s ->
  (s1 = "" /\ s2 = String a s) \/ (exists s1', s1 = String a s1' /\ s = s1' +:+ s2).
Proof.
  destruct s1 as [|c s1]; simpl; intros H.
  - left; auto.
  - injection H as -> <-. right; eauto.
Qed.

Lemma endswith_unfold (s suf : string) :
  PyStr.endswith s suf =
  if String.eqb s suf then true
  else match s with
       | EmptyString => false
       | String _ s' => PyStr.endswith s' suf
       end.
Proof. destruct s; reflexivity. Qed.

Lemma endswith_spec (s suf : string) :
  PyStr.endswith s suf = true <-> exists p, s = p +:+ suf.
Proof.
  induction s as [|c s IH]; rewrite endswith_unfold.
  - destruct (String.eqb_spec "" suf) as [<-|Hne].
    + split; [exists ""; reflexivity | reflexivity].
    + split; [discriminate |].
      intros [p Hp]. symmetry in Hp. apply append_eq_nil in Hp as [_ ->].
      now contradiction Hne.
  - destruct (String.eqb_spec (String c s) suf) as [<-|Hne].
    + split; [exists ""; reflexivity | reflexivity].
    + rewrite IH. split.
      * intros [p ->]. exists (String c p). reflexivity.
      * intros [p Hp]. destruct p as [|c' p]; simpl in Hp.
        -- now contradiction Hne.
        -- injection Hp as _ ->. eauto.
Qed.

Example split_dotted : PyStr.split "." "Spectrum.plotter.plot" = ["Spectrum"; "plotter"; "plot"].
Proof. reflexivity. Qed.

Example split_empty : PyStr.split "." "" = [""].
Proof. reflexivity. Qed.

Example split_trailing_dot : PyStr.split "." "a." = ["a"; ""].
Proof. reflexivity. Qed.

Example replace_dots : PyStr.replace "." "/" "pyspeckit.spectrum.fitters" = "pyspeckit/spectrum/fitters".
Proof. reflexivity. Qed.

Example fmt_d_line : PyStr.fmt_d 120 = "120".
Proof. reflexivity. Qed.

Example docstring_path_sample :
  docstring_path (base_url "user/proj") (normalize_root "lib") "pkg.spec"
    ("#cl-" +:+ PyStr.fmt_d 42)
  = "http://bitbucket.org/user/proj/src/tip/lib/pkg/spec.py#cl-42".
Proof. reflexivity. Qed.

(** ** The pattern matcher decides prefix membership *)

Lemma matches_cat_inv (r1 r2 : regex) (s : string) :
  matches (Cat r1 r2) s ->
  exists s1 s2, s = s1 +:+ s2 /\ matches r1 s1 /\ matches r2 s2.
Proof. inversion 1; subst; eauto. Qed.

Lemma matches_alt_inv (r1 r2 : regex) (s : string) :
  matches (Alt r1 r2) s -> matches r1 s \/ matches r2 s.
Proof. inversion 1; subst; auto. Qed.

Lemma matches_chr_inv (c : ascii) (s : string) :
  matches (Chr c) s -> s = String c "".
Proof. inversion 1; reflexivity. Qed.

Lemma matches_dot_inv (s : string) :
  matches Dot s -> exists c, s = String c "" /\ c <> newline.
Proof. inversion 1; subst; eauto. Qed.

Lemma matches_eps_inv (s : string) : matches Eps s -> s = "".
Proof. inversion 1; reflexivity. Qed.

Lemma nullable_spec (r : regex) : nullable r = true <-> matches r "".
Proof.
  induction r as [| | c | | r1 IH1 r2 IH2 | r1 IH1 r2 IH2 | r IH]; simpl.
  - split; [discriminate | inversion 1].
  - split; [constructor | reflexivity].
  - split; [discriminate | inversion 1].
  - split; [discriminate | inversion 1].
  - rewrite andb_true_iff, IH1, IH2. split.
    + intros [H1 H2]. apply (m_cat _ _ "" ""); assumption.
    + intros H. apply matches_cat_inv in H as (s1 & s2 & Heq & H1 & H2).
      symmetry in Heq. apply append_eq_nil in Heq as [-> ->]. auto.
  - rewrite orb_true_iff, IH1, IH2. split.
    + intros [H|H]; [apply m_alt_l | apply m_alt_r]; assumption.
    + apply matches_alt_inv.
  - split; [constructor | reflexivity].
Qed.

Lemma star_cons_inv (r : regex) (a : ascii) (s : string) :
  matches (Star r) (String a s) ->
  exists s1 s2, s = s1 +:+ s2 /\ matches r (String a s1) /\ matches (Star r) s2.
Proof.
  intros H. remember (Star r) as R eqn:HR. remember (String a s) as w eqn:Hw.
  revert s Hw.
  induction H as [| | | | | | |r' s1 s2 H1 _ H2 IH2]; intros s0 Hw; try discriminate.
  injection HR as ->.
  apply append_eq_cons in Hw as [[-> ->]|[s1' [-> ->]]].
  - apply IH2; reflexivity.
  - eauto.
Qed.

Lemma deriv_spec (a : ascii) (r : regex) (s : string) :
  matches (deriv a r) s <-> matches r (String a s).
Proof.
  revert s.
  induction r as [| | c | | r1 IH1 r2 IH2 | r1 IH1 r2 IH2 | r IH]; intros s; simpl.
  - split; inversion 1.
  - split; inversion 1.
  - destruct (Ascii.eqb_spec a c) as [->|Hne].
    + split; intros H.
      * apply matches_eps_inv in H as ->. constructor.
      * apply matches_chr_inv in H. injection H as ->. constructor.
    + split; intros H; [inversion H |].
      apply matches_chr_inv in H. injection H as -> _. now contradiction Hne.
  - destruct (Ascii.eqb_spec a newline) as [->|Hne].
    + split; intros H; [inversion H |].
      apply matches_dot_inv in H as (c & Heq & Hc). injection Heq as <- _.
      now contradiction Hc.
    + split; intros H.
      * apply matches_eps_inv in H as ->. now constructor.
      * apply matches_dot_inv in H as (c & Heq & Hc). injection Heq as _ ->.
        constructor.
  - assert (Hcat : matches (Cat (deriv a r1) r2) s ->
                   matches (Cat r1 r2) (String a s)).
    { intros H. apply matches_cat_inv in H as (s1 & s2 & -> & H1 & H2).
      apply IH1 in H1. apply (m_cat _ _ (String a s1) s2); assumption. }
    assert (Hinv : matches (Cat r1 r2) (String a s) ->
                   (matches r1 "" /\ matches (deriv a r2) s) \/
                   matches (Cat (deriv a r1) r2) s).
    { intros H. apply matches_cat_inv in H as (s1 & s2 & Heq & H1 & H2).
      symmetry in Heq.
      apply append_eq_cons in Heq as [[-> ->]|[s1' [-> ->]]].
      - left. split; [assumption | now apply IH2].
      - right. constructor; [now apply IH1 | assumption]. }
    destruct (nullable r1) eqn:Hn.
    + split.
      * intros H. apply matches_alt_inv in H as [H|H]; [auto |].
        apply (m_cat _ _ "" (String a s)); [now apply nullable_spec | now apply IH2].
      * intros H. apply Hinv in H as [[_ H]|H]; [now apply m_alt_r | now apply m_alt_l].
    + split; [exact Hcat |].
      intros H. apply Hinv in H as [[H _]|H]; [| assumption].
      apply nullable_spec in H. congruence.
  - split; intros H; apply matches_alt_inv in H as [H|H];
      solve [apply m_alt_l, IH1; assumption | apply m_alt_r, IH2; assumption].
  - split.
    + intros H. apply matches_cat_inv in H as (s1 & s2 & -> & H1 & H2).
      apply IH in H1. apply (m_star_app _ (String a s1) s2); assumption.
    + intros H. apply star_cons_inv in H as (s1 & s2 & -> & H1 & H2).
      constructor; [now apply IH | assumption].
Qed.

Lemma re_match_spec (r : regex) (s : string) :
  re_match r s = true <-> exists p q, s = p +:+ q /\ matches r p.
Proof.
  revert r. induction s as [|a s IH]; intros r; simpl.
  - rewrite orb_false_r, nullable_spec. split.
    + intros H. exists "", "". auto.
    + intros (p & q & Heq & H). symmetry in Heq.
      apply append_eq_nil in Heq as [-> _]. assumption.
  - rewrite orb_true_iff, nullable_spec, IH. split.
    + intros [H|(p & q & -> & H)].
      * exists "", (String a s). auto.
      * exists (String a p), q. split; [reflexivity | now apply deriv_spec].
    + intros (p & q & Heq & H). symmetry in Heq.
      apply append_eq_cons in Heq as [[-> _]|[p' [-> ->]]].
      * left; assumption.
      * right. exists p', q. split; [reflexivity | now apply deriv_spec].
Qed.

Lemma re_match_cat_void (r : regex) (s : string) : re_match (Cat Void r) s = false.
Proof. induction s as [|a s IH]; simpl; [reflexivity | exact IH]. Qed.

Lemma re_match_nullable (r : regex) (s : string) :
  nullable r = true -> re_match r s = true.
Proof. intros H. destruct s; simpl; rewrite H; reflexivity. Qed.

Lemma default_skip_spec (s : string) :
  re_match default_skip_regex s = true <-> exists q, s = String "_" q.
Proof.
  destruct s as [|a s]; simpl.
  - split; [discriminate | intros [q Hq]; discriminate].
  - destruct (Ascii.eqb_spec a "_") as [->|Hne].
    + rewrite re_match_nullable by reflexivity. split; eauto.
    + rewrite re_match_cat_void. split; [discriminate |].
      intros [q Hq]. injection Hq as -> _. now contradiction Hne.
Qed.

(** ** Trees *)

Lemma get_node_app (p q : list nat) (t : node) :
  get_node (p ++ q) t =
  match get_node p t with
  | Some n => get_node q n
  | None => None
  end.
Proof.
  revert t. induction p as [|i p IH]; intros t; simpl; [reflexivity |].
  destruct (node_children t !! i); [apply IH | reflexivity].
Qed.

Lemma same_head_refl (n : node) : same_head n n.
Proof. destruct n; simpl; auto. Qed.

Lemma same_head_append_child (c n : node) : same_head n (append_child c n).
Proof. destruct n; simpl; auto. Qed.

Lemma same_head_trans (a b c : node) : same_head a b -> same_head b c -> same_head a c.
Proof.
  destruct a, b, c; simpl; try tauto; try congruence.
  intros (-> & -> & ->) (-> & -> & ->). auto.
Qed.

Lemma same_head_link_target (a b : node) :
  same_head a b -> link_target a = link_target b.
Proof.
  destruct a, b; simpl; try tauto. intros (-> & -> & ->). reflexivity.
Qed.

Lemma same_head_classes (a b : node) :
  same_head a b -> attributes_classes a = attributes_classes b.
Proof.
  destruct a, b; simpl; try tauto. intros (-> & -> & ->). reflexivity.
Qed.

Lemma same_head_get (key : string) (a b : node) :
  same_head a b -> node_get key a = node_get key b.
Proof.
  destruct a, b; simpl; try tauto. intros (-> & -> & ->). reflexivity.
Qed.

(** ** The loop over the signatures of one described object *)

Section Loop.

Variable rt : runtime.
Variable cfg : config.
Variables url source_root : string.

Local Abbreviation attach := (attach_link rt cfg url source_root).
Local Abbreviation step := (link_signode rt cfg url source_root).
Local Abbreviation loop := (link_signodes rt cfg url source_root).
Local Abbreviation pass := (link_tree rt cfg url source_root).

Lemma link_signode_eq (names : gset (option string)) (s : node) :
  step names s =
  match link_target s with
  | None => (names, s)
  | Some (modname, fullname) =>
      if bool_decide (fullname ∈ names) then (names, s)
      else ({[ fullname ]} ∪ names, attach modname fullname s)
  end.
Proof.
  destruct s as [data|tag cls attrs ch]; [reflexivity |].
  destruct tag; try reflexivity. simpl.
  destruct (attrs !! "module") as [modname|]; [| reflexivity].
  destruct (PyStr.truthy modname); reflexivity.
Qed.

Lemma link_signode_names (names : gset (option string)) (s : node) :
  fst (step names s) = names_after names [s].
Proof.
  rewrite link_signode_eq. simpl.
  destruct (link_target s) as [[modname fullname]|]; [| reflexivity].
  case_bool_decide; simpl; [| reflexivity].
  symmetry. now apply subseteq_union_1_L, singleton_subseteq_l.
Qed.

Lemma attach_link_cases (modname : string) (fullname : option string) (s : node) :
  attach modname fullname s = s \/
  exists anchor,
    source_anchor rt (import_object rt modname fullname) = Some anchor /\
    attach modname fullname s =
    append_child
      (docstring_link cfg (docstring_path url source_root modname anchor)) s.
Proof.
  unfold attach_link.
  destruct (source_anchor rt (import_object rt modname fullname)) as [anchor|];
    [| now left].
  destruct (PyStr.truthy anchor); [right; eauto | now left].
Qed.

Lemma same_head_attach (modname : string) (fullname : option string) (s : node) :
  same_head s (attach modname fullname s).
Proof.
  destruct (attach_link_cases modname fullname s) as [->|(anchor & _ & ->)].
  - apply same_head_refl.
  - apply same_head_append_child.
Qed.

Lemma same_head_step (names : gset (option string)) (s : node) :
  same_head s (snd (step names s)).
Proof.
  rewrite link_signode_eq.
  destruct (link_target s) as [[modname fullname]|]; [| apply same_head_refl].
  case_bool_decide; simpl; [apply same_head_refl | apply same_head_attach].
Qed.

Lemma names_after_spec (names : gset (option string)) (l : list node)
    (f : option string) :
  f ∈ names_after names l <->
  f ∈ names \/ exists j sj modname, l !! j = Some sj /\ link_target sj = Some (modname, f).
Proof.
  revert names. induction l as [|s l IH]; intros names; simpl.
  - split; [auto | intros [H|(j & sj & m & H & _)]; [auto | discriminate]].
  - rewrite IH. split.
    + intros [H|(j & sj & m & Hj & Ht)].
      * destruct (link_target s) as [[m f']|] eqn:Hs; [| auto].
        apply elem_of_union in H as [H|H]; [| auto].
        apply elem_of_singleton in H as ->. right. exists 0, s, m. auto.
      * right. exists (S j), sj, m. auto.
    + intros [H|(j & sj & m & Hj & Ht)].
      * left. destruct (link_target s) as [[m f']|]; [| assumption].
        apply elem_of_union. now right.
      * destruct j as [|j]; simpl in Hj.
        -- injection Hj as ->. left. rewrite Ht.
           apply elem_of_union. left. now apply elem_of_singleton.
        -- right. eauto.
Qed.

Lemma link_signodes_length (names : gset (option string)) (l : list node) :
  length (loop names l) = length l.
Proof.
  revert names. induction l as [|s l IH]; intros names; simpl; [reflexivity |].
  destruct (step names s) as [names' s']. simpl. now rewrite IH.
Qed.

Lemma link_signodes_lookup (names : gset (option string)) (l : list node)
    (i : nat) (s : node) :
  l !! i = Some s ->
  loop names l !! i = Some (snd (step (names_after names (take i l)) s)).
Proof.
  revert names i. induction l as [|s0 l IH]; intros names i Hi; [discriminate |].
  simpl. destruct (step names s0) as [names' s0'] eqn:Hstep.
  destruct i as [|i]; simpl in *.
  - injection Hi as ->. now rewrite Hstep.
  - rewrite (IH _ _ Hi). f_equal.
    change names' with (fst (names', s0')). rewrite <- Hstep, link_signode_names.
    reflexivity.
Qed.

Lemma link_signodes_same_head (names : gset (option string)) (l : list node) :
  Forall2 same_head l (loop names l).
Proof.
  revert names. induction l as [|s l IH]; intros names; simpl; [constructor |].
  destruct (step names s) as [names' s'] eqn:Hstep. constructor; [| apply IH].
  change s' with (snd (names', s')). rewrite <- Hstep. apply same_head_step.
Qed.

End Loop.

(** ** The docstring pass over a tree *)

Section Pass.

Variable rt : runtime.
Variable cfg : config.
Variables url source_root : string.

Local Abbreviation attach := (attach_link rt cfg url source_root).
Local Abbreviation step := (link_signode rt cfg url source_root).
Local Abbreviation loop := (link_signodes rt cfg url source_root).
Local Abbreviation pass := (link_tree rt cfg url source_root).

Lemma link_tree_same_head (n : node) : same_head n (pass n).
Proof. destruct n; simpl; auto. Qed.

Lemma link_tree_children (tag : tagname) (cls : list string)
    (attrs : gmap string string) (ch : list node) :
  node_children (pass (Element tag cls attrs ch)) =
  if is_py_desc tag attrs then loop ∅ (pass <$> ch) else pass <$> ch.
Proof. reflexivity. Qed.

Lemma link_tree_children_same_head (n : node) :
  Forall2 same_head (node_children n) (node_children (pass n)).
Proof.
  destruct n as [data|tag cls attrs ch]; [constructor |].
  rewrite link_tree_children. simpl.
  assert (Hmap : Forall2 same_head ch (pass <$> ch)).
  { apply Forall2_fmap_r, Forall_Forall2_diag, Forall_forall.
    intros x _. apply link_tree_same_head. }
  destruct (is_py_desc tag attrs); [| exact Hmap].
  eapply Forall2_trans; [| exact Hmap | apply link_signodes_same_head].
  intros a b c. apply same_head_trans.
Qed.

Lemma link_tree_children_length (n : node) :
  length (node_children (pass n)) = length (node_children n).
Proof.
  symmetry. eapply Forall2_length, link_tree_children_same_head.
Qed.

Lemma names_after_same_head (names : gset (option string)) (l l' : list node) :
  Forall2 same_head l l' -> names_after names l = names_after names l'.
Proof.
  intros H. revert names. induction H as [|a b l l' Hab _ IH]; intros names; simpl.
  - reflexivity.
  - rewrite (same_head_link_target _ _ Hab). apply IH.
Qed.

Lemma get_node_append_child (c x : node) (i : nat) (p : list nat) (d : node) :
  get_node (i :: p) x = Some d -> get_node (i :: p) (append_child c x) = Some d.
Proof.
  destruct x as [data|tag cls attrs ch]; simpl; [auto |].
  destruct (ch !! i) as [y|] eqn:Hy; [| discriminate].
  now rewrite (lookup_app_l_Some _ _ _ _ Hy).
Qed.

Lemma get_node_link_signode (names : gset (option string)) (x : node)
    (p : list nat) (cls : list string) (attrs : gmap string string)
    (ch : list node) :
  get_node p x = Some (Element desc cls attrs ch) ->
  get_node p (snd (step names x)) = Some (Element desc cls attrs ch).
Proof.
  intros H. destruct p as [|i p].
  - injection H as ->. reflexivity.
  - rewrite link_signode_eq.
    destruct (link_target x) as [[modname fullname]|]; [| exact H].
    case_bool_decide; simpl; [exact H |].
    destruct (attach_link_cases rt cfg url source_root modname fullname x)
      as [->|(anchor & _ & ->)]; [exact H |].
    now apply get_node_append_child.
Qed.

(** A described object keeps its place; its children are the loop's
    result. *)
Lemma get_node_link_tree (p : list nat) (t : node) (cls : list string)
    (attrs : gmap string string) (ch : list node) :
  get_node p t = Some (Element desc cls attrs ch) ->
  get_node p (pass t) = Some (pass (Element desc cls attrs ch)).
Proof.
  revert t. induction p as [|i p IH]; intros t H.
  - injection H as ->. reflexivity.
  - destruct t as [data|ttag tcls tattrs tch]; [discriminate |].
    cbn [get_node] in *. rewrite link_tree_children.
    cbn [node_children] in H.
    destruct (tch !! i) as [c|] eqn:Hc; [| discriminate].
    apply IH in H.
    assert (Hpc : (pass <$> tch) !! i = Some (pass c))
      by (rewrite list_lookup_fmap, Hc; reflexivity).
    destruct (is_py_desc ttag tattrs).
    + rewrite (link_signodes_lookup _ _ _ _ _ _ _ _ Hpc).
      now apply get_node_link_signode.
    + now rewrite Hpc.
Qed.

(** The node that replaces the [i]-th child of a described object of the
    Python domain. *)
Lemma get_node_signode (p : list nat) (t : node) (cls : list string)
    (attrs : gmap string string) (ch : list node) (i : nat) (s : node) :
  get_node p t = Some (Element desc cls attrs ch) ->
  attrs !! "domain" = Some "py" ->
  ch !! i = Some s ->
  get_node (p ++ [i]) (pass t) =
  Some (snd (step (names_after ∅ (take i ch)) (pass s))).
Proof.
  intros Hp Hdom Hi.
  rewrite get_node_app, (get_node_link_tree _ _ _ _ _ Hp).
  cbn [get_node]. rewrite link_tree_children.
  unfold is_py_desc. rewrite Hdom, !bool_decide_eq_true_2 by reflexivity.
  cbn [andb].
  assert (Hpc : (pass <$> ch) !! i = Some (pass s))
    by (rewrite list_lookup_fmap, Hi; reflexivity).
  rewrite (link_signodes_lookup _ _ _ _ _ _ _ _ Hpc).
  rewrite <- fmap_take.
  rewrite <- (names_after_same_head _ (take i ch)); [reflexivity |].
  apply Forall2_fmap_r, Forall_Forall2_diag, Forall_forall.
  intros x _. apply link_tree_same_head.
Qed.

Lemma link_tree_signature (cls : list string) (attrs : gmap string string)
    (ch : list node) :
  pass (Element desc_signature cls attrs ch) =
  Element desc_signature cls attrs (pass <$> ch).
Proof. reflexivity. Qed.

End Pass.

(** ** The traversal computes the pass *)

Section Traversal.

Variable rt : runtime.
Variable cfg : config.
Variables url source_root : string.

Local Abbreviation visit := (visit_desc rt cfg url source_root).
Local Abbreviation run := (visit_all rt cfg url source_root).
Local Abbreviation pass := (link_tree rt cfg url source_root).
Local Abbreviation loop := (link_signodes rt cfg url source_root).

Lemma visit_all_app (ps qs : list (list nat)) (t : node) :
  run (ps ++ qs) t = run qs (run ps t).
Proof. unfold visit_all. apply foldl_app. Qed.

Lemma visit_all_cons (p : list nat) (ps : list (list nat)) (t : node) :
  run (p :: ps) t = run ps (update_at p visit t).
Proof. reflexivity. Qed.

Lemma visit_all_child (i : nat) (qs : list (list nat)) (tag : tagname)
    (cls : list string) (attrs : gmap string string) (ch : list node) :
  run (cons i <$> qs) (Element tag cls attrs ch) =
  Element tag cls attrs (alter (run qs) i ch).
Proof.
  revert ch. induction qs as [|q qs IH]; intros ch.
  - cbn. f_equal. symmetry. now apply list_alter_id.
  - rewrite fmap_cons, visit_all_cons. cbn [update_at]. rewrite IH. f_equal.
    rewrite list_alter_alter_eq. reflexivity.
Qed.

Lemma visit_all_children (tag : tagname) (cls : list string)
    (attrs : gmap string string) (ch0 pre cur post : list node) :
  length cur = length ch0 ->
  run (traverse_children traverse_desc (length pre) ch0)
      (Element tag cls attrs (pre ++ cur ++ post)) =
  Element tag cls attrs
    (pre ++ zip_with (fun c0 c => run (traverse_desc c0) c) ch0 cur ++ post).
Proof.
  revert pre cur. induction ch0 as [|c0 ch0 IH]; intros pre [|c cur] Hlen;
    try discriminate.
  - reflexivity.
  - cbn [traverse_children zip_with]. rewrite visit_all_app, visit_all_child.
    rewrite (alter_app_r_alt _ pre) by lia. rewrite Nat.sub_diag.
    replace (alter (run (traverse_desc c0)) 0 ((c :: cur) ++ post))
      with ([run (traverse_desc c0) c] ++ cur ++ post) by reflexivity.
    rewrite (app_assoc pre).
    replace (S (length pre)) with (length (pre ++ [run (traverse_desc c0) c]))
      by (rewrite length_app; cbn; lia).
    rewrite IH by (injection Hlen; auto).
    rewrite <- app_assoc. reflexivity.
Qed.

Lemma visit_all_append_child (l c : node) :
  node_tag c <> Some desc ->
  run (traverse_desc c) (append_child l c) =
  append_child l (run (traverse_desc c) c).
Proof.
  destruct c as [data|tag cls attrs ch]; [reflexivity |]. intros Htag.
  cbn [traverse_desc append_child].
  rewrite bool_decide_eq_false_2 by (cbn in Htag; congruence). cbn [app].
  pose proof (visit_all_children tag cls attrs ch [] ch [l] eq_refl) as H1.
  pose proof (visit_all_children tag cls attrs ch [] ch [] eq_refl) as H2.
  cbn [app length] in H1, H2. rewrite app_nil_r in H2.
  rewrite H1. rewrite app_nil_r in H2. rewrite H2. reflexivity.
Qed.

Lemma link_target_tag (c : node) (x : string * option string) :
  link_target c = Some x -> node_tag c = Some desc_signature.
Proof.
  destruct c as [data|tag cls attrs ch]; [discriminate |].
  destruct tag; try discriminate. reflexivity.
Qed.

Lemma visit_all_loop (ch : list node) (names : gset (option string)) :
  Forall (fun c => run (traverse_desc c) c = pass c) ch ->
  zip_with (fun c0 c => run (traverse_desc c0) c) ch (loop names ch) =
  loop names (pass <$> ch).
Proof.
  intros HF. revert names. induction HF as [|c ch Hc _ IH]; intros names.
  - reflexivity.
  - rewrite fmap_cons. cbn [link_signodes].
    rewrite !link_signode_eq.
    rewrite <- (same_head_link_target c (pass c)) by apply link_tree_same_head.
    destruct (link_target c) as [[modname fullname]|] eqn:Ht.
    + case_bool_decide.
      * cbn [zip_with]. now rewrite Hc, IH.
      * cbn [zip_with]. rewrite IH. f_equal.
        unfold attach_link.
        destruct (source_anchor rt (import_object rt modname fullname))
          as [anchor|]; [| exact Hc].
        destruct (PyStr.truthy anchor); [| exact Hc].
        rewrite visit_all_append_child, Hc; [reflexivity |].
        rewrite (link_target_tag _ _ Ht). discriminate.
    + cbn [zip_with]. now rewrite Hc, IH.
Qed.

Lemma zip_with_diag {A B : Type} (f : A -> A -> B) (l : list A) :
  zip_with f l l = (fun x => f x x) <$> l.
Proof. induction l as [|x l IH]; cbn; [reflexivity | now rewrite IH]. Qed.

(** The loop over [traverse] yields the same tree as the recursion. *)
Lemma docstring_links_link_tree (t : node) :
  docstring_links rt cfg url source_root t = pass t.
Proof.
  unfold docstring_links.
  induction t as [data|tag cls attrs ch IH] using node_tree_ind; [reflexivity |].
  cbn [traverse_desc]. rewrite visit_all_app.
  assert (Hfirst : run (if bool_decide (tag = desc) then [[]] else [])
                       (Element tag cls attrs ch) =
                   Element tag cls attrs
                     (if is_py_desc tag attrs then loop ∅ ch else ch)).
  { unfold is_py_desc. case_bool_decide; [| reflexivity].
    cbn. destruct (bool_decide (attrs !! "domain" = Some "py")); reflexivity. }
  rewrite Hfirst.
  pose proof (visit_all_children tag cls attrs ch []
                (if is_py_desc tag attrs then loop ∅ ch else ch) []) as Hch.
  cbn [app length] in Hch. rewrite !app_nil_r in Hch. rewrite Hch.
  - cbn [link_tree]. f_equal. destruct (is_py_desc tag attrs).
    + now apply visit_all_loop.
    + rewrite zip_with_diag. apply Forall_fmap_ext_1. exact IH.
  - destruct (is_py_desc tag attrs); [apply link_signodes_length | reflexivity].
Qed.

Lemma docstring_links_fmap (l : list node) :
  docstring_links rt cfg url source_root <$> l = pass <$> l.
Proof. apply list_fmap_ext. intros i x _. apply docstring_links_link_tree. Qed.

End Traversal.

(** ** The callback *)

Section Callback.

Variable rt : runtime.
Variable app : application.

Local Abbreviation cfg := (app_config app).
Local Abbreviation project := (edit_on_bitbucket_project (app_config app)).
Local Abbreviation url := (base_url (edit_on_bitbucket_project (app_config app))).
Local Abbreviation doc_root :=
  (normalize_root (edit_on_bitbucket_doc_root (app_config app))).
Local Abbreviation source_root :=
  (normalize_root (edit_on_bitbucket_source_root (app_config app))).
Local Abbreviation skip_regex := (edit_on_bitbucket_skip_regex (app_config app)).
Local Abbreviation pass := (link_tree rt (app_config app) url source_root).

Lemma doctree_read_sentinel (t : node) :
  project = "REQUIRED" ->
  doctree_read rt app t = (Raise (ValueError sentinel_message), t).
Proof. intros H. unfold doctree_read. rewrite H. reflexivity. Qed.

Lemma doctree_read_unfold (t : node) :
  project <> "REQUIRED" ->
  doctree_read rt app t =
  match page_edit_link rt app url doc_root t with
  | (Raise e, t') => (Raise e, t')
  | (Return _, t') => (Return tt, pass t')
  end.
Proof.
  intros H. unfold doctree_read.
  destruct (String.eqb_spec project "REQUIRED") as [Heq|_]; [contradiction |].
  unfold bind, modify.
  destruct (page_edit_link rt app url doc_root t) as [[e|[]] t']; [reflexivity |].
  now rewrite docstring_links_link_tree.
Qed.

Lemma page_edit_link_relpath_raises (u d : string) (t : node) (e : exn) :
  relpath rt (node_get "source" t) (srcdir app) = Raise e ->
  page_edit_link rt app u d t = (Raise e, t).
Proof.
  intros H. unfold page_edit_link, bind, get_tree, lift. rewrite H. reflexivity.
Qed.

Lemma page_edit_link_skip (u d : string) (t : node) (doc_path : string) :
  relpath rt (node_get "source" t) (srcdir app) = Return doc_path ->
  re_match skip_regex doc_path = true ->
  page_edit_link rt app u d t = (Return tt, t).
Proof.
  intros Hrel Hskip. unfold page_edit_link, bind, get_tree, lift.
  rewrite Hrel, Hskip. reflexivity.
Qed.

Lemma page_edit_link_unfold (u d : string) (t : node) (doc_path : string) :
  relpath rt (node_get "source" t) (srcdir app) = Return doc_path ->
  re_match skip_regex doc_path = false ->
  page_edit_link rt app u d t =
  match last (node_children t) with
  | None => (Raise IndexError, t)
  | Some tail =>
      match attributes_classes tail with
      | Raise e => (Raise e, t)
      | Return cls =>
          if bool_decide ("edit-section" ∈ cls)
          then (Return tt, append_to_last (page_para cfg (u +:+ d +:+ doc_path)) t)
          else (Return tt,
                append_child (edit_section (page_para cfg (u +:+ d +:+ doc_path))) t)
      end
  end.
Proof.
  intros Hrel Hskip. unfold page_edit_link, bind, get_tree, lift, last_child, modify.
  rewrite Hrel, Hskip. cbn [negb].
  destruct (last (node_children t)) as [tail|]; [| reflexivity].
  destruct (attributes_classes tail) as [e|cls]; [reflexivity |].
  destruct (bool_decide ("edit-section" ∈ cls)); reflexivity.
Qed.

(** Whatever the page-edit pass raises, it raises before it changes the
    tree. *)
Lemma page_edit_link_raise_unchanged (u d : string) (t t' : node) (e : exn) :
  page_edit_link rt app u d t = (Raise e, t') -> t' = t.
Proof.
  destruct (relpath rt (node_get "source" t) (srcdir app)) as [e'|doc_path] eqn:Hrel.
  - rewrite (page_edit_link_relpath_raises _ _ _ _ Hrel). congruence.
  - destruct (re_match skip_regex doc_path) eqn:Hskip.
    + rewrite (page_edit_link_skip _ _ _ _ Hrel Hskip). congruence.
    + rewrite (page_edit_link_unfold _ _ _ _ Hrel Hskip).
      destruct (last (node_children t)) as [tail|]; [| congruence].
      destruct (attributes_classes tail) as [e'|cls]; [congruence |].
      destruct (bool_decide ("edit-section" ∈ cls)); discriminate.
Qed.

Lemma append_to_last_snoc (c : node) (tag : tagname) (cls : list string)
    (attrs : gmap string string) (init : list node) (tail : node) :
  append_to_last c (Element tag cls attrs (init ++ [tail])) =
  Element tag cls attrs (init ++ [append_child c tail]).
Proof. simpl. now rewrite last_snoc, removelast_last. Qed.

Lemma page_edit_link_existing_section (u d : string) (tag : tagname)
    (cls : list string) (attrs : gmap string string) (init : list node)
    (ltag : tagname) (lcls : list string) (lattrs : gmap string string)
    (lch : list node) (doc_path : string) :
  relpath rt (attrs !! "source") (srcdir app) = Return doc_path ->
  re_match skip_regex doc_path = false ->
  "edit-section" ∈ lcls ->
  page_edit_link rt app u d
    (Element tag cls attrs (init ++ [Element ltag lcls lattrs lch])) =
  (Return tt,
   Element tag cls attrs
     (init ++ [Element ltag lcls lattrs
                 (lch ++ [page_para cfg (u +:+ d +:+ doc_path)])])).
Proof.
  intros Hrel Hskip Hin.
  rewrite (page_edit_link_unfold _ _ _ doc_path) by assumption.
  cbn [node_children]. rewrite last_snoc. cbn [attributes_classes].
  rewrite bool_decide_eq_true_2 by assumption.
  now rewrite append_to_last_snoc.
Qed.

Lemma page_edit_link_new_section (u d : string) (tag : tagname)
    (cls : list string) (attrs : gmap string string) (init : list node)
    (ltag : tagname) (lcls : list string) (lattrs : gmap string string)
    (lch : list node) (doc_path : string) :
  relpath rt (attrs !! "source") (srcdir app) = Return doc_path ->
  re_match skip_regex doc_path = false ->
  "edit-section" ∉ lcls ->
  page_edit_link rt app u d
    (Element tag cls attrs (init ++ [Element ltag lcls lattrs lch])) =
  (Return tt,
   Element tag cls attrs
     ((init ++ [Element ltag lcls lattrs lch]) ++
      [edit_section (page_para cfg (u +:+ d +:+ doc_path))])).
Proof.
  intros Hrel Hskip Hin.
  rewrite (page_edit_link_unfold _ _ _ doc_path) by assumption.
  cbn [node_children]. rewrite last_snoc. cbn [attributes_classes].
  rewrite bool_decide_eq_false_2 by assumption. reflexivity.
Qed.

Lemma page_edit_link_no_children (u d : string) (t : node) (doc_path : string) :
  relpath rt (node_get "source" t) (srcdir app) = Return doc_path ->
  re_match skip_regex doc_path = false ->
  node_children t = [] ->
  page_edit_link rt app u d t = (Raise IndexError, t).
Proof.
  intros Hrel Hskip Hch.
  rewrite (page_edit_link_unfold _ _ _ doc_path) by assumption.
  now rewrite Hch.
Qed.

End Callback.

(** ** Running the callback again on its own result *)

Lemma Forall2_last_Some {A B : Type} (R : A -> B -> Prop) (l : list A)
    (k : list B) (x : A) :
  Forall2 R l k -> last l = Some x -> exists y, last k = Some y /\ R x y.
Proof.
  intros HF Hl. apply last_Some in Hl as [l' ->].
  apply Forall2_app_inv_l in HF as (k1 & k2 & _ & H2 & ->).
  apply Forall2_cons_inv_l in H2 as (y & k3 & Hxy & H3 & ->).
  apply Forall2_nil_inv_l in H3 as ->.
  exists y. split; [apply last_snoc | assumption].
Qed.

Lemma append_to_last_length (c t : node) :
  length (node_children (append_to_last c t)) = length (node_children t).
Proof.
  destruct t as [data|tag cls attrs ch]; [reflexivity |]. simpl.
  destruct (last ch) as [tail|] eqn:Hl; [| reflexivity].
  apply last_Some in Hl as [init ->].
  rewrite removelast_last. simpl. now rewrite !length_app.
Qed.

Lemma same_head_append_to_last (c t : node) : same_head t (append_to_last c t).
Proof.
  destruct t as [data|tag cls attrs ch]; simpl; [reflexivity |].
  destruct (last ch); simpl; auto.
Qed.

(** After the page-edit pass has added its link, the last child of the
    tree is an element that carries ['edit-section']. *)
Lemma page_link_tail (para t tail : node) (cls : list string) :
  last (node_children t) = Some tail ->
  attributes_classes tail = Return cls ->
  let t' := if bool_decide ("edit-section" ∈ cls)
            then append_to_last para t
            else append_child (edit_section para) t in
  same_head t t' /\
  exists tail' cls',
    last (node_children t') = Some tail' /\
    attributes_classes tail' = Return cls' /\
    "edit-section" ∈ cls'.
Proof.
  intros Hl Hc. destruct t as [data|tag tcls attrs ch]; [discriminate |].
  cbn [node_children] in Hl. case_bool_decide as Hin; cbn zeta.
  - split; [apply same_head_append_to_last |].
    apply last_Some in Hl as [init ->]. rewrite append_to_last_snoc.
    cbn [node_children]. rewrite last_snoc.
    exists (append_child para tail), cls. split; [reflexivity |].
    split; [| assumption].
    rewrite <- Hc. symmetry. apply same_head_classes, same_head_append_child.
  - split; [apply same_head_append_child |].
    cbn [append_child node_children]. rewrite last_snoc.
    exists (edit_section para), ["edit-section"]. split; [reflexivity |].
    split; [reflexivity | set_solver].
Qed.

Section Reinvocation.

Variable rt : runtime.
Variable app : application.

Local Abbreviation url := (base_url (edit_on_bitbucket_project (app_config app))).
Local Abbreviation source_root :=
  (normalize_root (edit_on_bitbucket_source_root (app_config app))).
Local Abbreviation pass := (link_tree rt (app_config app) url source_root).

Lemma page_edit_link_reuses_tail (u d : string) (t tail : node)
    (cls : list string) (doc_path : string) :
  relpath rt (node_get "source" t) (srcdir app) = Return doc_path ->
  re_match (edit_on_bitbucket_skip_regex (app_config app)) doc_path = false ->
  last (node_children t) = Some tail ->
  attributes_classes tail = Return cls ->
  "edit-section" ∈ cls ->
  page_edit_link rt app u d t =
  (Return tt, append_to_last (page_para (app_config app) (u +:+ d +:+ doc_path)) t).
Proof.
  intros Hrel Hskip Hl Hc Hin.
  rewrite (page_edit_link_unfold _ _ _ _ _ _ Hrel Hskip), Hl, Hc.
  now rewrite bool_decide_eq_true_2.
Qed.

Lemma doctree_read_twice (t t1 : node) :
  doctree_read rt app t = (Return tt, t1) ->
  exists t2,
    doctree_read rt app t1 = (Return tt, t2) /\
    length (node_children t2) = length (node_children t1).
Proof.
  intros H.
  destruct (String.eqb_spec (edit_on_bitbucket_project (app_config app)) "REQUIRED")
    as [Heq|Hne].
  { rewrite (doctree_read_sentinel _ _ _ Heq) in H. discriminate. }
  rewrite (doctree_read_unfold _ _ _ Hne) in H.
  rewrite (doctree_read_unfold _ _ _ Hne).
  destruct (relpath rt (node_get "source" t) (srcdir app)) as [e|doc_path] eqn:Hrel.
  { rewrite (page_edit_link_relpath_raises _ _ _ _ _ _ Hrel) in H. discriminate. }
  destruct (re_match (edit_on_bitbucket_skip_regex (app_config app)) doc_path)
    eqn:Hskip.
  - rewrite (page_edit_link_skip _ _ _ _ _ _ Hrel Hskip) in H.
    injection H as <-.
    assert (Hrel1 : relpath rt (node_get "source" (pass t)) (srcdir app)
                    = Return doc_path).
    { rewrite <- (same_head_get _ t); [assumption |].
      apply link_tree_same_head. }
    rewrite (page_edit_link_skip _ _ _ _ _ _ Hrel1 Hskip).
    eexists. split; [reflexivity |]. apply link_tree_children_length.
  - rewrite (page_edit_link_unfold _ _ _ _ _ _ Hrel Hskip) in H.
    destruct (last (node_children t)) as [tail|] eqn:Hl; [| discriminate].
    destruct (attributes_classes tail) as [e|cls] eqn:Hc; [discriminate |].
    match type of H with
    | (let '(_, _) := ?rhs in _) = _ => remember rhs as r eqn:Hr
    | match ?rhs with _ => _ end = _ => remember rhs as r eqn:Hr
    end.
    pose proof (page_link_tail
                  (page_para (app_config app)
                     (url +:+ normalize_root
                                (edit_on_bitbucket_doc_root (app_config app))
                          +:+ doc_path)) t tail cls Hl Hc) as Htail.
    cbn zeta in Htail.
    destruct (bool_decide ("edit-section" ∈ cls)); subst r;
      injection H as <-;
      destruct Htail as (Hsame & tail' & cls' & Hl' & Hc' & Hin');
      match goal with
      | |- context [pass ?t0] =>
          pose proof (link_tree_children_same_head rt (app_config app)
                        url source_root t0) as HF;
          pose proof (link_tree_same_head rt (app_config app)
                        url source_root t0) as Hsame1;
          destruct (Forall2_last_Some _ _ _ _ HF Hl') as (tail1 & Hl1 & Hs1);
          assert (Hrel1 : relpath rt (node_get "source" (pass t0)) (srcdir app)
                          = Return doc_path)
            by (rewrite <- (same_head_get _ t);
                [assumption | eapply same_head_trans; eassumption]);
          assert (Hc1 : attributes_classes tail1 = Return cls')
            by (rewrite <- Hc'; symmetry; now apply same_head_classes);
          rewrite (page_edit_link_reuses_tail _ _ _ _ _ _ Hrel1 Hskip Hl1 Hc1 Hin')
      end;
      (eexists; split; [reflexivity |]);
      rewrite link_tree_children_length; apply append_to_last_length.
Qed.

End Reinvocation.

(** ** Matching anywhere, and root normalization *)

Lemma re_search_spec (r : regex) (s : string) :
  re_search r s = true <-> exists a m b, s = a +:+ (m +:+ b) /\ matches r m.
Proof.
  induction s as [|c s IH].
  - cbn [re_search]. rewrite orb_false_r, re_match_spec. split.
    + intros (p & q & -> & H). exists "", p, q. auto.
    + intros (a & m & b & Heq & H). symmetry in Heq.
      apply append_eq_nil in Heq as [-> Heq]. eauto.
  - cbn [re_search]. rewrite orb_true_iff, re_match_spec, IH. split.
    + intros [(p & q & -> & H)|(a & m & b & -> & H)].
      * exists "", p, q. auto.
      * exists (String c a), m, b. auto.
    + intros (a & m & b & Heq & H). destruct a as [|c' a].
      * left. exists m, b. auto.
      * right. injection Heq as -> ->. eauto.
Qed.

Lemma append_snoc_inj (s1 s2 : string) (c : ascii) :
  s1 +:+ String c "" = s2 +:+ String c "" -> s1 = s2.
Proof.
  revert s2. induction s1 as [|a s1 IH]; intros [|b s2]; simpl; intros H.
  - reflexivity.
  - injection H as _ H. symmetry in H. apply append_eq_nil in H as [_ H].
    discriminate.
  - injection H as _ H. apply append_eq_nil in H as [_ H]. discriminate.
  - injection H as -> H. f_equal. now apply IH.
Qed.

Lemma normalize_root_cases (root : string) :
  (root <> "" /\ PyStr.endswith root "/" = false /\
   normalize_root root = root +:+ "/") \/
  ((root = "" \/ PyStr.endswith root "/" = true) /\ normalize_root root = root).
Proof.
  unfold normalize_root.
  destruct (String.eqb_spec root "") as [->|Hne]; cbn [negb andb]; [auto |].
  destruct (PyStr.endswith root "/"); cbn [negb]; auto.
Qed.

(** ** When the callback returns *)


(** X12.  Whenever the callback raises, whatever the exception, the tree
    is the one it was given. *)
Lemma doctree_read_raise_unchanged (rt : runtime) (app : application)
    (t t' : node) (e : exn) :
  doctree_read rt app t = (Raise e, t') -> t' = t.
Proof.
  destruct (String.eqb_spec (edit_on_bitbucket_project (app_config app)) "REQUIRED")
    as [Heq|Hne].
  { rewrite (doctree_read_sentinel _ _ _ Heq). congruence. }
  rewrite doctree_read_unfold by assumption.
  destruct (page_edit_link rt app _ _ t) as [[e'|[]] t0] eqn:Hpage; [| discriminate].
  intros H. injection H as _ <-.
  eapply page_edit_link_raise_unchanged. exact Hpage.
Qed.

(** * The claims *)

(** C1.  The sentinel project identifier is not the only condition under
    which the callback raises: with a valid project identifier and a path
    the skip pattern does not match, the tree of an empty source file
    makes [doctree[-1]] raise [IndexError]. *)
Theorem empty_page_raises_index_error :
  edit_on_bitbucket_project (app_config Sample.app) <> "REQUIRED" /\
  doctree_read Sample.rt Sample.app Sample.empty_page =
  (Raise IndexError, Sample.empty_page).
Proof. split; [discriminate | vm_compute; reflexivity]. Qed.

(** C2.  A tree without children receives no page-edit link although its
    path is not skipped and the project identifier is valid: the callback
    raises [IndexError] and leaves the tree as it was. *)
Theorem no_page_link_for_tree_without_children (rt : runtime)
    (app : application) (t : node) (doc_path : string) :
  edit_on_bitbucket_project (app_config app) <> "REQUIRED" ->
  relpath rt (node_get "source" t) (srcdir app) = Return doc_path ->
  re_match (edit_on_bitbucket_skip_regex (app_config app)) doc_path = false ->
  node_children t = [] ->
  doctree_read rt app t = (Raise IndexError, t).
Proof.
  intros Hp Hrel Hskip Hch. rewrite doctree_read_unfold by assumption.
  now rewrite (page_edit_link_no_children _ _ _ _ _ _ Hrel Hskip Hch).
Qed.

Lemma no_page_link_for_tree_without_children_witness :
  doctree_read Sample.rt Sample.app Sample.empty_page =
  (Raise IndexError, Sample.empty_page).
Proof.
  apply (no_page_link_for_tree_without_children
           Sample.rt Sample.app Sample.empty_page "index.rst").
  - discriminate.
  - vm_compute; reflexivity.
  - vm_compute; reflexivity.
  - reflexivity.
Defined.

(** X13.  For a tree whose last child is an element without
    ['edit-section'], the link is appended in a new edit section, with the
    URL [url + doc_root + doc_path]. *)
Lemma page_link_in_new_section (rt : runtime) (app : application)
    (tag : tagname) (cls : list string) (attrs : gmap string string)
    (init : list node) (ltag : tagname) (lcls : list string)
    (lattrs : gmap string string) (lch : list node) (doc_path : string) :
  let cfg := app_config app in
  let url := base_url (edit_on_bitbucket_project cfg) in
  let doc_root := normalize_root (edit_on_bitbucket_doc_root cfg) in
  let source_root := normalize_root (edit_on_bitbucket_source_root cfg) in
  edit_on_bitbucket_project cfg <> "REQUIRED" ->
  relpath rt (attrs !! "source") (srcdir app) = Return doc_path ->
  re_match (edit_on_bitbucket_skip_regex cfg) doc_path = false ->
  "edit-section" ∉ lcls ->
  doctree_read rt app
    (Element tag cls attrs (init ++ [Element ltag lcls lattrs lch])) =
  (Return tt,
   docstring_links rt cfg url source_root
     (Element tag cls attrs
        ((init ++ [Element ltag lcls lattrs lch]) ++
         [edit_section (page_para cfg (url +:+ doc_root +:+ doc_path))]))).
Proof.
  intros cfg url doc_root source_root Hp Hrel Hskip Hin.
  rewrite doctree_read_unfold, docstring_links_link_tree by assumption.
  now rewrite (page_edit_link_new_section _ _ _ _ _ _ _ _ _ _ _ _ _ Hrel Hskip Hin).
Qed.

(** C3 (amended).  A signature of a Python-domain described object that
    has a non-empty module name, is the first of its siblings to register
    its full name, and resolves to an object whose source line [lineno] is
    known, gets a link appended whose URL is
    [url + source_root + modname.replace('.', '/') + '.py#cl-' + lineno]. *)
Theorem first_resolvable_signature_gets_link (rt : runtime) (app : application)
    (t t1 : node) (p : list nat) (dcls : list string)
    (dattrs : gmap string string) (ch : list node) (i : nat)
    (cls : list string) (attrs : gmap string string) (sch : list node)
    (modname : string) (obj : pyobj rt) (lines : list string) (lineno : Z) :
  let cfg := app_config app in
  let url := base_url (edit_on_bitbucket_project cfg) in
  let doc_root := normalize_root (edit_on_bitbucket_doc_root cfg) in
  let source_root := normalize_root (edit_on_bitbucket_source_root cfg) in
  edit_on_bitbucket_project cfg <> "REQUIRED" ->
  page_edit_link rt app url doc_root t = (Return tt, t1) ->
  get_node p t1 = Some (Element desc dcls dattrs ch) ->
  dattrs !! "domain" = Some "py" ->
  ch !! i = Some (Element desc_signature cls attrs sch) ->
  attrs !! "module" = Some modname ->
  modname <> "" ->
  (forall j sj m, j < i -> ch !! j = Some sj ->
                  link_target sj <> Some (m, attrs !! "fullname")) ->
  import_object rt modname (attrs !! "fullname") = Some obj ->
  getsourcelines rt obj = Return (lines, lineno) ->
  exists t2,
    doctree_read rt app t = (Return tt, t2) /\
    get_node (p ++ [i]) t2 =
    Some (Element desc_signature cls attrs
            ((docstring_links rt cfg url source_root <$> sch) ++
             [docstring_link cfg
                (url +:+ source_root +:+ PyStr.replace "." "/" modname +:+
                 ".py" +:+ "#cl-" +:+ PyStr.fmt_d lineno)])).
Proof.
  intros cfg url doc_root source_root Hp Hpage Hdesc Hdom Hi Hmod Hne Hfirst
         Hobj Hsrc.
  eexists. split.
  { rewrite doctree_read_unfold by assumption. fold cfg url doc_root.
    rewrite Hpage. reflexivity. }
  fold cfg url source_root. rewrite docstring_links_fmap.
  rewrite (get_node_signode _ _ _ _ _ _ _ _ _ _ _ Hdesc Hdom Hi).
  rewrite link_tree_signature, link_signode_eq. cbn [link_target].
  rewrite Hmod. unfold PyStr.truthy at 1.
  destruct (String.eqb_spec modname "") as [?|_]; [contradiction |]. cbn [negb].
  rewrite bool_decide_eq_false_2.
  - cbn [snd]. unfold attach_link. rewrite Hobj. cbn [source_anchor].
    rewrite Hsrc. reflexivity.
  - rewrite names_after_spec. intros [H|(j & sj & m & Hj & Ht)]; [set_solver |].
    apply lookup_take_Some in Hj as [Hj Hlt].
    exact (Hfirst j sj m Hlt Hj Ht).
Qed.

Lemma first_resolvable_signature_gets_link_witness :
  exists t2,
    doctree_read Sample.rt Sample.app
      (Sample.api_page [Sample.signature "pkg.spec" "fit"]) = (Return tt, t2) /\
    get_node ([0; 1] ++ [0]) t2 =
    Some (Element desc_signature []
            (<[ "module" := "pkg.spec" ]> {[ "fullname" := "fit" ]})
            ((docstring_links Sample.rt Sample.cfg
                (base_url "user/proj") (normalize_root "lib") <$> [Text "fit"]) ++
             [docstring_link Sample.cfg
                (base_url "user/proj" +:+ normalize_root "lib" +:+
                 PyStr.replace "." "/" "pkg.spec" +:+ ".py" +:+ "#cl-" +:+
                 PyStr.fmt_d 42)])).
Proof.
  apply (first_resolvable_signature_gets_link Sample.rt Sample.app
           (Sample.api_page [Sample.signature "pkg.spec" "fit"])
           (snd (page_edit_link Sample.rt Sample.app (base_url "user/proj")
                   (normalize_root "")
                   (Sample.api_page [Sample.signature "pkg.spec" "fit"])))
           [0; 1] [] {[ "domain" := "py" ]}
           [Sample.signature "pkg.spec" "fit"] 0
           [] (<[ "module" := "pkg.spec" ]> {[ "fullname" := "fit" ]})
           [Text "fit"] "pkg.spec" (Sample.Func 42) ["def fit():"] 42%Z).
  - discriminate.
  - vm_compute; reflexivity.
  - vm_compute; reflexivity.
  - vm_compute; reflexivity.
  - reflexivity.
  - vm_compute; reflexivity.
  - discriminate.
  - intros j sj m Hj. lia.
  - vm_compute; reflexivity.
  - reflexivity.
Defined.

(** C3 as stated fails: the second of two signatures with the same full
    name resolves to an object with a known source line and gets no
    link. *)
Lemma second_signature_of_a_name_gets_no_link :
  let s := Sample.signature "pkg.spec" "fit" in
  let t := Sample.api_page [s; s] in
  get_node [0; 1] t = Some (Sample.py_desc [s; s]) /\
  import_object Sample.rt "pkg.spec" (node_get "fullname" s)
  = Some (Sample.Func 42) /\
  getsourcelines Sample.rt (Sample.Func 42) = Return (["def fit():"], 42%Z) /\
  fst (doctree_read Sample.rt Sample.app t) = Return tt /\
  get_node [0; 1; 1] (snd (doctree_read Sample.rt Sample.app t)) = Some s.
Proof. repeat split; vm_compute; reflexivity. Qed.

Lemma unresolved_no_anchor (rt : runtime) (modname : string)
    (fullname : option string) :
  unresolved rt modname fullname ->
  source_anchor rt (import_object rt modname fullname) = None.
Proof.
  intros [e H|mod_ name e H -> Hg|obj e Ho Hs].
  - unfold import_object. rewrite H. reflexivity.
  - unfold import_object. rewrite H, Hg. reflexivity.
  - rewrite Ho. simpl. rewrite Hs. reflexivity.
Qed.

(** C4.  A signature whose symbol is not resolved (the import raises, an
    attribute is missing, or the source line cannot be found) gets no
    link: its children are the ones it had, and the callback returns
    normally. *)
Theorem unresolved_signature_gets_no_link (rt : runtime) (app : application)
    (t t1 : node) (p : list nat) (dcls : list string)
    (dattrs : gmap string string) (ch : list node) (i : nat)
    (cls : list string) (attrs : gmap string string) (sch : list node)
    (modname : string) :
  let cfg := app_config app in
  let url := base_url (edit_on_bitbucket_project cfg) in
  let doc_root := normalize_root (edit_on_bitbucket_doc_root cfg) in
  let source_root := normalize_root (edit_on_bitbucket_source_root cfg) in
  edit_on_bitbucket_project cfg <> "REQUIRED" ->
  page_edit_link rt app url doc_root t = (Return tt, t1) ->
  get_node p t1 = Some (Element desc dcls dattrs ch) ->
  dattrs !! "domain" = Some "py" ->
  ch !! i = Some (Element desc_signature cls attrs sch) ->
  attrs !! "module" = Some modname ->
  unresolved rt modname (attrs !! "fullname") ->
  exists t2,
    doctree_read rt app t = (Return tt, t2) /\
    get_node (p ++ [i]) t2 =
    Some (Element desc_signature cls attrs
            (docstring_links rt cfg url source_root <$> sch)).
Proof.
  intros cfg url doc_root source_root Hp Hpage Hdesc Hdom Hi Hmod Hun.
  eexists. split.
  { rewrite doctree_read_unfold by assumption. fold cfg url doc_root.
    rewrite Hpage. reflexivity. }
  fold cfg url source_root. rewrite docstring_links_fmap.
  rewrite (get_node_signode _ _ _ _ _ _ _ _ _ _ _ Hdesc Hdom Hi).
  rewrite link_tree_signature, link_signode_eq. cbn [link_target].
  rewrite Hmod. destruct (PyStr.truthy modname); [| reflexivity].
  case_bool_decide; [reflexivity |]. cbn [snd]. unfold attach_link.
  now rewrite (unresolved_no_anchor _ _ _ Hun).
Qed.

Lemma unresolved_signature_gets_no_link_witness :
  exists t2,
    doctree_read Sample.rt Sample.app
      (Sample.api_page [Sample.signature "pkg.spec" "len"]) = (Return tt, t2) /\
    get_node ([0; 1] ++ [0]) t2 =
    Some (Element desc_signature []
            (<[ "module" := "pkg.spec" ]> {[ "fullname" := "len" ]})
            (docstring_links Sample.rt Sample.cfg
               (base_url "user/proj") (normalize_root "lib") <$> [Text "len"])).
Proof.
  apply (unresolved_signature_gets_no_link Sample.rt Sample.app
           (Sample.api_page [Sample.signature "pkg.spec" "len"])
           (snd (page_edit_link Sample.rt Sample.app (base_url "user/proj")
                   (normalize_root "")
                   (Sample.api_page [Sample.signature "pkg.spec" "len"])))
           [0; 1] [] {[ "domain" := "py" ]}
           [Sample.signature "pkg.spec" "len"] 0
           [] (<[ "module" := "pkg.spec" ]> {[ "fullname" := "len" ]})
           [Text "len"] "pkg.spec").
  - discriminate.
  - vm_compute; reflexivity.
  - vm_compute; reflexivity.
  - vm_compute; reflexivity.
  - reflexivity.
  - vm_compute; reflexivity.
  - apply (introspection_failure Sample.rt "pkg.spec" _ Sample.Builtin
             (OtherError "TypeError")); vm_compute; reflexivity.
Defined.

(** C5.  When the document's path relative to the source directory
    matches the skip pattern, the page-edit pass leaves the tree as it
    is: the tree the callback leaves has the children count it had, and
    with a valid project identifier it is the docstring pass over the
    unchanged tree. *)
Theorem skipped_page_gets_no_page_link (rt : runtime) (app : application)
    (t : node) (doc_path : string) :
  let cfg := app_config app in
  let url := base_url (edit_on_bitbucket_project cfg) in
  let doc_root := normalize_root (edit_on_bitbucket_doc_root cfg) in
  let source_root := normalize_root (edit_on_bitbucket_source_root cfg) in
  relpath rt (node_get "source" t) (srcdir app) = Return doc_path ->
  re_match (edit_on_bitbucket_skip_regex cfg) doc_path = true ->
  page_edit_link rt app url doc_root t = (Return tt, t) /\
  (edit_on_bitbucket_project cfg <> "REQUIRED" ->
   doctree_read rt app t =
   (Return tt, docstring_links rt cfg url source_root t)) /\
  length (node_children (snd (doctree_read rt app t))) = length (node_children t).
Proof.
  intros cfg url doc_root source_root Hrel Hskip.
  assert (Hpage : page_edit_link rt app url doc_root t = (Return tt, t))
    by (eapply page_edit_link_skip; eassumption).
  assert (Hread : edit_on_bitbucket_project cfg <> "REQUIRED" ->
                  doctree_read rt app t
                  = (Return tt, docstring_links rt cfg url source_root t)).
  { intros Hp. rewrite doctree_read_unfold, docstring_links_link_tree by assumption.
    fold cfg url doc_root. rewrite Hpage. reflexivity. }
  split; [assumption |]. split; [assumption |].
  destruct (String.eqb_spec (edit_on_bitbucket_project cfg) "REQUIRED")
    as [Heq|Hne].
  - now rewrite (doctree_read_sentinel _ _ _ Heq).
  - rewrite (Hread Hne). cbn [snd]. rewrite docstring_links_link_tree.
    apply link_tree_children_length.
Qed.

Lemma skipped_page_gets_no_page_link_witness :
  let t := Sample.page "/docs/_templates/layout.rst" [Sample.heading "Layout"] in
  page_edit_link Sample.rt Sample.app (base_url "user/proj") (normalize_root "") t
  = (Return tt, t) /\
  (edit_on_bitbucket_project Sample.cfg <> "REQUIRED" ->
   doctree_read Sample.rt Sample.app t
   = (Return tt,
      docstring_links Sample.rt Sample.cfg (base_url "user/proj")
        (normalize_root "lib") t)) /\
  length (node_children (snd (doctree_read Sample.rt Sample.app t)))
  = length (node_children t).
Proof.
  apply (skipped_page_gets_no_page_link Sample.rt Sample.app
           (Sample.page "/docs/_templates/layout.rst" [Sample.heading "Layout"])
           "_templates/layout.rst").
  - vm_compute; reflexivity.
  - vm_compute; reflexivity.
Defined.

(** C6.  When the last child of the tree carries ['edit-section'], the
    callback never gives the tree a further child.  When it produces the
    page-edit paragraph, the paragraph is appended to that last child; and
    running the callback again on the result adds no child either. *)
Theorem existing_edit_section_is_reused (rt : runtime) (app : application)
    (tag : tagname) (cls : list string) (attrs : gmap string string)
    (init : list node) (ltag : tagname) (lcls : list string)
    (lattrs : gmap string string) (lch : list node) :
  let cfg := app_config app in
  let url := base_url (edit_on_bitbucket_project cfg) in
  let doc_root := normalize_root (edit_on_bitbucket_doc_root cfg) in
  let source_root := normalize_root (edit_on_bitbucket_source_root cfg) in
  let t := Element tag cls attrs (init ++ [Element ltag lcls lattrs lch]) in
  "edit-section" ∈ lcls ->
  length (node_children (snd (doctree_read rt app t))) = length (node_children t) /\
  (forall doc_path,
      edit_on_bitbucket_project cfg <> "REQUIRED" ->
      relpath rt (attrs !! "source") (srcdir app) = Return doc_path ->
      re_match (edit_on_bitbucket_skip_regex cfg) doc_path = false ->
      let para := page_para cfg (url +:+ doc_root +:+ doc_path) in
      let t' := Element tag cls attrs
                  (init ++ [Element ltag lcls lattrs (lch ++ [para])]) in
      page_edit_link rt app url doc_root t = (Return tt, t') /\
      doctree_read rt app t =
      (Return tt, docstring_links rt cfg url source_root t')) /\
  (forall t1,
      doctree_read rt app t = (Return tt, t1) ->
      exists t2,
        doctree_read rt app t1 = (Return tt, t2) /\
        length (node_children t2) = length (node_children t)).
Proof.
  intros cfg url doc_root source_root t Hin.
  assert (Hlink : forall doc_path,
             edit_on_bitbucket_project cfg <> "REQUIRED" ->
             relpath rt (attrs !! "source") (srcdir app) = Return doc_path ->
             re_match (edit_on_bitbucket_skip_regex cfg) doc_path = false ->
             let para := page_para cfg (url +:+ doc_root +:+ doc_path) in
             let t' := Element tag cls attrs
                         (init ++ [Element ltag lcls lattrs (lch ++ [para])]) in
             page_edit_link rt app url doc_root t = (Return tt, t') /\
             doctree_read rt app t =
             (Return tt, docstring_links rt cfg url source_root t')).
  { intros doc_path Hp Hrel Hskip para t'.
    assert (Hpage : page_edit_link rt app url doc_root t = (Return tt, t'))
      by (apply page_edit_link_existing_section; assumption).
    split; [exact Hpage |].
    rewrite doctree_read_unfold, docstring_links_link_tree by assumption.
    fold cfg url doc_root. rewrite Hpage. reflexivity. }
  assert (Hlen : length (node_children (snd (doctree_read rt app t)))
                 = length (node_children t)).
  { destruct (String.eqb_spec (edit_on_bitbucket_project cfg) "REQUIRED")
      as [Heq|Hne].
    { now rewrite (doctree_read_sentinel _ _ _ Heq). }
    destruct (relpath rt (node_get "source" t) (srcdir app))
      as [e|doc_path] eqn:Hrel.
    { rewrite doctree_read_unfold by assumption.
      now rewrite (page_edit_link_relpath_raises _ _ _ _ _ _ Hrel). }
    destruct (re_match (edit_on_bitbucket_skip_regex cfg) doc_path) eqn:Hskip.
    - rewrite doctree_read_unfold by assumption.
      rewrite (page_edit_link_skip _ _ _ _ _ _ Hrel Hskip). cbn [snd].
      apply link_tree_children_length.
    - destruct (Hlink doc_path Hne Hrel Hskip) as [_ ->]. cbn [snd].
      rewrite docstring_links_link_tree, link_tree_children_length.
      subst t. cbn [node_children].
      now rewrite !length_app. }
  split; [exact Hlen |]. split; [exact Hlink |].
  intros t1 Hread.
  destruct (doctree_read_twice _ _ _ _ Hread) as (t2 & Hread2 & Hlen2).
  exists t2. split; [exact Hread2 |].
  rewrite Hlen2. rewrite Hread in Hlen. exact Hlen.
Qed.

Lemma existing_edit_section_is_reused_witness :
  let sec := Element section ["edit-section"] empty [] in
  let t := Sample.page "/docs/index.rst" [Sample.heading "Index"; sec] in
  length (node_children (snd (doctree_read Sample.rt Sample.app t))) = 2.
Proof.
  refine (proj1 (existing_edit_section_is_reused Sample.rt Sample.app
                   document [] {[ "source" := "/docs/index.rst" ]}
                   [Sample.heading "Index"] section ["edit-section"] empty []
                   _)).
  constructor.
Defined.

(** C7 (amended).  Within a described object of the Python domain, of two
    signatures with the same full name at most one gets a link.  When the
    earlier one has a non-empty module name, the later one is skipped; and
    the signature that is the first to register the name is the one on
    which the link is attempted. *)
Theorem one_link_per_registered_name (rt : runtime) (cfg : config)
    (url source_root : string) (t : node) (p : list nat) (dcls : list string)
    (dattrs : gmap string string) (ch : list node) (i j : nat) (si sj : node) :
  let pass := docstring_links rt cfg url source_root in
  let fullname := node_get "fullname" si in
  get_node p t = Some (Element desc dcls dattrs ch) ->
  dattrs !! "domain" = Some "py" ->
  ch !! i = Some si ->
  ch !! j = Some sj ->
  i < j ->
  node_get "fullname" sj = fullname ->
  (link_target si <> None -> get_node (p ++ [j]) (pass t) = Some (pass sj)) /\
  (get_node (p ++ [i]) (pass t) = Some (pass si) \/
   get_node (p ++ [j]) (pass t) = Some (pass sj)) /\
  (forall modname,
      link_target si = Some (modname, fullname) ->
      (forall k sk m, k < i -> ch !! k = Some sk ->
                      link_target sk <> Some (m, fullname)) ->
      get_node (p ++ [i]) (pass t) =
      Some (attach_link rt cfg url source_root modname fullname (pass si))).
Proof.
  intros pass fullname Hdesc Hdom Hi Hj Hlt Hname. subst pass.
  rewrite !docstring_links_link_tree.
  set (pass := link_tree rt cfg url source_root).
  assert (Hpass : forall s, link_target (pass s) = link_target s).
  { intros s. symmetry. apply same_head_link_target, link_tree_same_head. }
  assert (Hfull : forall s m f, link_target s = Some (m, f) ->
                                f = node_get "fullname" s).
  { intros [|tg c a k] m f; [discriminate |]. simpl.
    destruct tg; try discriminate.
    destruct (a !! "module") as [m'|]; [| discriminate].
    destruct (PyStr.truthy m'); [| discriminate]. congruence. }
  assert (Hskip : link_target si <> None ->
                  get_node (p ++ [j]) (pass t) = Some (pass sj)).
  { intros Hsi. subst pass.
    rewrite (get_node_signode _ _ _ _ _ _ _ _ _ _ _ Hdesc Hdom Hj).
    rewrite link_signode_eq, Hpass.
    destruct (link_target sj) as [[mj fj]|] eqn:Htj; [| reflexivity].
    rewrite bool_decide_eq_true_2; [reflexivity |].
    destruct (link_target si) as [[mi fi]|] eqn:Hti; [| contradiction].
    apply names_after_spec. right. exists i, si, mi.
    split; [apply lookup_take_Some; auto |].
    rewrite Hti. do 2 f_equal.
    rewrite (Hfull _ _ _ Hti), (Hfull _ _ _ Htj). now symmetry. }
  split; [exact Hskip |]. split.
  - destruct (link_target si) as [[mi fi]|] eqn:Hti.
    + right. apply Hskip. discriminate.
    + left. subst pass.
      rewrite (get_node_signode _ _ _ _ _ _ _ _ _ _ _ Hdesc Hdom Hi).
      now rewrite link_signode_eq, Hpass, Hti.
  - intros modname Hti Hfirst. subst pass.
    rewrite (get_node_signode _ _ _ _ _ _ _ _ _ _ _ Hdesc Hdom Hi).
    rewrite link_signode_eq, Hpass, Hti.
    rewrite bool_decide_eq_false_2; [reflexivity |].
    rewrite names_after_spec. intros [H|(k & sk & m & Hk & Ht)].
    + now apply not_elem_of_empty in H.
    + apply lookup_take_Some in Hk as [Hk Hlt'].
      exact (Hfirst k sk m Hlt' Hk Ht).
Qed.

Lemma one_link_per_registered_name_witness :
  let s := Sample.signature "pkg.spec" "fit" in
  let pass := docstring_links Sample.rt Sample.cfg "u/" "lib/" in
  let t := Sample.api_page [s; s] in
  (link_target s <> None -> get_node ([0; 1] ++ [1]) (pass t) = Some (pass s)) /\
  (get_node ([0; 1] ++ [0]) (pass t) = Some (pass s) \/
   get_node ([0; 1] ++ [1]) (pass t) = Some (pass s)) /\
  (forall modname,
      link_target s = Some (modname, node_get "fullname" s) ->
      (forall k sk m, k < 0 -> [s; s] !! k = Some sk ->
                      link_target sk <> Some (m, node_get "fullname" s)) ->
      get_node ([0; 1] ++ [0]) (pass t) =
      Some (attach_link Sample.rt Sample.cfg "u/" "lib/" modname
              (node_get "fullname" s) (pass s))).
Proof.
  apply (one_link_per_registered_name Sample.rt Sample.cfg "u/" "lib/"
           (Sample.api_page [Sample.signature "pkg.spec" "fit";
                             Sample.signature "pkg.spec" "fit"])
           [0; 1] [] {[ "domain" := "py" ]}
           [Sample.signature "pkg.spec" "fit"; Sample.signature "pkg.spec" "fit"]
           0 1).
  - vm_compute; reflexivity.
  - vm_compute; reflexivity.
  - reflexivity.
  - reflexivity.
  - lia.
  - reflexivity.
Defined.

(** C7 as stated fails: both signatures carry the full name [fit]; the
    first has no module name and the loop passes over it, the second is
    not skipped and gets the link. *)
Lemma later_signature_linked_after_bare_one :
  let s0 := Sample.bare_signature "fit" in
  let s1 := Sample.signature "pkg.spec" "fit" in
  let t := Sample.api_page [s0; s1] in
  let t2 := snd (doctree_read Sample.rt Sample.app t) in
  node_get "fullname" s0 = node_get "fullname" s1 /\
  get_node [0; 1] t = Some (Sample.py_desc [s0; s1]) /\
  fst (doctree_read Sample.rt Sample.app t) = Return tt /\
  get_node [0; 1; 0] t2 = Some s0 /\
  get_node [0; 1; 1] t2 =
  Some (append_child
          (docstring_link Sample.cfg
             "http://bitbucket.org/user/proj/src/tip/lib/pkg/spec.py#cl-42") s1).
Proof. repeat split; vm_compute; reflexivity. Qed.

(** C8.  With the sentinel project identifier the callback raises the
    configuration error and the tree is the one it was given: the check
    comes before anything is appended. *)
Theorem sentinel_error_leaves_tree_untouched (rt : runtime) (app : application)
    (t : node) :
  edit_on_bitbucket_project (app_config app) = "REQUIRED" ->
  doctree_read rt app t = (Raise (ValueError sentinel_message), t).
Proof. apply doctree_read_sentinel. Qed.

Lemma sentinel_error_leaves_tree_untouched_witness :
  doctree_read Sample.rt Sample.unset_app
    (Sample.api_page [Sample.signature "pkg.spec" "fit"]) =
  (Raise (ValueError sentinel_message),
   Sample.api_page [Sample.signature "pkg.spec" "fit"]).
Proof.
  apply (sentinel_error_leaves_tree_untouched Sample.rt Sample.unset_app
           (Sample.api_page [Sample.signature "pkg.spec" "fit"])).
  reflexivity.
Defined.

(** C9 (amended).  A non-empty root that does not end in ['/'] gets one
    ['/'] appended, the empty root stays empty, and a root that ends in
    ['/'] stays as it is.  The normalized root is therefore empty or ends
    in ['/'], and it ends in ['//'] only if the configured root did. *)
Theorem roots_are_normalized (root : string) :
  (root <> "" -> PyStr.endswith root "/" = false ->
   normalize_root root = root +:+ "/") /\
  (root = "" -> normalize_root root = "") /\
  (PyStr.endswith root "/" = true -> normalize_root root = root) /\
  (normalize_root root = "" \/ PyStr.endswith (normalize_root root) "/" = true) /\
  (PyStr.endswith (normalize_root root) "//" = true ->
   PyStr.endswith root "//" = true).
Proof.
  destruct (normalize_root_cases root) as [(Hne & Hend & ->)|[Hcase ->]].
  - split; [reflexivity |]. split; [intros ->; now contradiction Hne |].
    split; [congruence |]. split.
    + right. apply endswith_spec. eauto.
    + intros H. apply endswith_spec in H as [p Hp].
      change (p +:+ "//") with (p +:+ ("/" +:+ "/")) in Hp.
      rewrite <- append_assoc in Hp. apply append_snoc_inj in Hp.
      assert (PyStr.endswith root "/" = true) by (apply endswith_spec; eauto).
      congruence.
  - split; [intros Hne Hend; destruct Hcase as [->|Hcase]; [now contradiction Hne | congruence] |].
    split; [auto |]. split; [reflexivity |]. split; [| auto].
    destruct Hcase as [->|H]; auto.
Qed.

Lemma roots_are_normalized_witness : normalize_root "lib" = "lib/".
Proof.
  apply (proj1 (roots_are_normalized "lib")); [discriminate | reflexivity].
Defined.

(** C9 as stated fails: a root that ends in ['/'] is kept as it is, so the
    root ['/'] doubles the separator that ends the base URL, and the root
    ['doc//'] brings its own doubled separator into the page URL. *)
Lemma configured_root_can_double_separator :
  normalize_root "/" = "/" /\
  base_url "user/proj" +:+ normalize_root "/" +:+ "index.rst"
  = "http://bitbucket.org/user/proj/src/tip//index.rst" /\
  normalize_root "doc//" = "doc//" /\
  base_url "user/proj" +:+ normalize_root "doc//" +:+ "index.rst"
  = "http://bitbucket.org/user/proj/src/tip/doc//index.rst".
Proof. repeat split; vm_compute; reflexivity. Qed.

(** C10.  The skip test is [re.match]: it succeeds exactly when the
    pattern matches a prefix of the document's path.  Under the default
    pattern the skipped paths are those that begin with an underscore, and
    a pattern that matches somewhere in the path but not at its start does
    not suppress the page-edit link. *)
Theorem skip_test_is_anchored :
  (forall r s, re_match r s = true <-> exists p q, s = p +:+ q /\ matches r p) /\
  (forall s, re_match default_skip_regex s = true <-> exists q, s = String "_" q) /\
  (forall (rt : runtime) (app : application) (u d : string) (tag : tagname)
          (cls : list string) (attrs : gmap string string) (init : list node)
          (ltag : tagname) (lcls : list string) (lattrs : gmap string string)
          (lch : list node) (doc_path : string),
      let cfg := app_config app in
      let para := page_para cfg (u +:+ d +:+ doc_path) in
      relpath rt (attrs !! "source") (srcdir app) = Return doc_path ->
      re_search (edit_on_bitbucket_skip_regex cfg) doc_path = true ->
      re_match (edit_on_bitbucket_skip_regex cfg) doc_path = false ->
      page_edit_link rt app u d
        (Element tag cls attrs (init ++ [Element ltag lcls lattrs lch])) =
      (Return tt,
       if bool_decide ("edit-section" ∈ lcls)
       then Element tag cls attrs
              (init ++ [Element ltag lcls lattrs (lch ++ [para])])
       else Element tag cls attrs
              ((init ++ [Element ltag lcls lattrs lch]) ++ [edit_section para]))).
Proof.
  split; [exact re_match_spec |]. split; [exact default_skip_spec |].
  intros rt app u d tag cls attrs init ltag lcls lattrs lch doc_path cfg para
         Hrel _ Hskip.
  case_bool_decide as Hin.
  - apply page_edit_link_existing_section; assumption.
  - apply page_edit_link_new_section; assumption.
Qed.

Lemma skip_test_is_anchored_witness :
  re_search Sample.underscore "api/_private.rst" = true /\
  re_match Sample.underscore "api/_private.rst" = false /\
  page_edit_link Sample.rt Sample.underscore_app "u/" "doc/"
    (Element document [] {[ "source" := "/docs/api/_private.rst" ]}
       ([] ++ [Element section [] empty [Text "Private"]])) =
  (Return tt,
   if bool_decide ("edit-section" ∈ @nil string)
   then Element document [] {[ "source" := "/docs/api/_private.rst" ]}
          ([] ++ [Element section [] empty
                    ([Text "Private"] ++
                     [page_para (app_config Sample.underscore_app)
                        ("u/" +:+ "doc/" +:+ "api/_private.rst")])])
   else Element document [] {[ "source" := "/docs/api/_private.rst" ]}
          (([] ++ [Element section [] empty [Text "Private"]]) ++
           [edit_section
              (page_para (app_config Sample.underscore_app)
                 ("u/" +:+ "doc/" +:+ "api/_private.rst"))])).
Proof.
  split; [vm_compute; reflexivity |]. split; [vm_compute; reflexivity |].
  apply (proj2 (proj2 skip_test_is_anchored) Sample.rt Sample.underscore_app
           "u/" "doc/" document [] {[ "source" := "/docs/api/_private.rst" ]}
           [] section [] empty [Text "Private"] "api/_private.rst").
  - vm_compute; reflexivity.
  - vm_compute; reflexivity.
  - vm_compute; reflexivity.
Defined.

(** * Further properties of the extension *)

(** ** Resolving dotted names *)

Lemma split_nonempty (sep : ascii) (s : string) : PyStr.split sep s <> [].
Proof.
  destruct s as [|c s]; cbn [PyStr.split]; [discriminate |].
  destruct (Ascii.eqb c sep); [discriminate |].
  destruct (PyStr.split sep s); discriminate.
Qed.

Lemma split_append (sep : ascii) (a b : string) :
  PyStr.split sep (a +:+ String sep b) = PyStr.split sep a ++ PyStr.split sep b.
Proof.
  induction a as [|c a IH].
  - cbn. now rewrite Ascii.eqb_refl.
  - change (String c a +:+ String sep b) with (String c (a +:+ String sep b)).
    cbn [PyStr.split]. rewrite IH.
    destruct (Ascii.eqb c sep); [reflexivity |].
    pose proof (split_nonempty sep a) as Hne.
    destruct (PyStr.split sep a) as [|p ps]; [contradiction | reflexivity].
Qed.

Lemma getattr_path_app (rt : runtime) (obj : option (pyobj rt))
    (l1 l2 : list string) :
  getattr_path rt obj (l1 ++ l2) =
  match getattr_path rt obj l1 with
  | Raise e => Raise e
  | Return o => getattr_path rt o l2
  end.
Proof.
  revert obj. induction l1 as [|part l1 IH]; intros obj; cbn; [reflexivity |].
  destruct (py_getattr rt obj part); [reflexivity | apply IH].
Qed.

(** X1.  Resolving [a.b] is resolving [a] and then following [b] from the
    object found: when [import_object(modname, a)] returns an object,
    [import_object(modname, a + '.' + b)] is what [getattr] yields along
    [b.split('.')] from that object, and [None] if one of these raises. *)
Theorem import_object_dotted (rt : runtime) (modname a b : string)
    (o : pyobj rt) :
  import_object rt modname (Some a) = Some o ->
  import_object rt modname (Some (a +:+ String "." b)) =
  match getattr_path rt (Some o) (PyStr.split "." b) with
  | Raise _ => None
  | Return x => x
  end.
Proof.
  unfold import_object. destruct (py_import rt modname) as [e|mod_]; [discriminate |].
  rewrite split_append, getattr_path_app.
  destruct (getattr_path rt mod_ (PyStr.split "." a)) as [e|x]; [discriminate |].
  now intros ->.
Qed.

Lemma import_object_dotted_witness :
  import_object Sample.rt "pkg.spec" (Some ("fit" +:+ String "." "missing")) = None.
Proof.
  apply (import_object_dotted Sample.rt "pkg.spec" "fit" "missing" (Sample.Func 42)).
  vm_compute; reflexivity.
Defined.

(** ** The module part of a docstring URL *)

(** X2.  For a module name without ['/'], the path built at line 135 has
    one segment per dotted component of the module name, and the segments
    are the components. *)
Theorem module_path_segments (modname : string) :
  lacks "/" modname = true ->
  PyStr.split "/" (PyStr.replace "." "/" modname) = PyStr.split "." modname.
Proof.
  induction modname as [|c m IH]; intros Hl; [reflexivity |].
  cbn [lacks] in Hl. apply andb_true_iff in Hl as [Hc Hm].
  apply negb_true_iff in Hc. specialize (IH Hm).
  cbn [PyStr.replace PyStr.split].
  destruct (Ascii.eqb c ".") eqn:Hdot.
  - rewrite Ascii.eqb_refl. now rewrite IH.
  - rewrite Hc. now rewrite IH.
Qed.

Lemma module_path_segments_witness :
  PyStr.split "/" (PyStr.replace "." "/" "pyspeckit.spectrum.fitters")
  = PyStr.split "." "pyspeckit.spectrum.fitters".
Proof.
  apply (module_path_segments "pyspeckit.spectrum.fitters"). reflexivity.
Defined.

(** ** When a link is attached *)

Lemma append_child_neq (l : node) (tag : tagname) (cls : list string)
    (attrs : gmap string string) (ch : list node) :
  append_child l (Element tag cls attrs ch) <> Element tag cls attrs ch.
Proof.
  cbn. intros H. injection H as H. apply (f_equal length) in H.
  rewrite length_app in H. cbn in H. lia.
Qed.

(** X3.  Lines 124-144 change a signature exactly when the symbol resolves
    to an object whose source line is found, whatever that line is (the
    anchor is never an empty string); the change is the link appended
    after the signature's children. *)
Theorem link_attached_iff_resolved (rt : runtime) (cfg : config)
    (url source_root modname : string) (fullname : option string)
    (tag : tagname) (cls : list string) (attrs : gmap string string)
    (ch : list node) :
  let s := Element tag cls attrs ch in
  (attach_link rt cfg url source_root modname fullname s <> s <->
   exists obj lines lineno,
     import_object rt modname fullname = Some obj /\
     getsourcelines rt obj = Return (lines, lineno)) /\
  (forall obj lines lineno,
      import_object rt modname fullname = Some obj ->
      getsourcelines rt obj = Return (lines, lineno) ->
      attach_link rt cfg url source_root modname fullname s =
      Element tag cls attrs
        (ch ++ [docstring_link cfg
                  (url +:+ source_root +:+ PyStr.replace "." "/" modname +:+
                   ".py" +:+ "#cl-" +:+ PyStr.fmt_d lineno)])).
Proof.
  intros s.
  assert (Hpos : forall obj lines lineno,
             import_object rt modname fullname = Some obj ->
             getsourcelines rt obj = Return (lines, lineno) ->
             attach_link rt cfg url source_root modname fullname s =
             Element tag cls attrs
               (ch ++ [docstring_link cfg
                         (url +:+ source_root +:+ PyStr.replace "." "/" modname +:+
                          ".py" +:+ "#cl-" +:+ PyStr.fmt_d lineno)])).
  { intros obj lines lineno Ho Hs. unfold attach_link.
    rewrite Ho. cbn [source_anchor]. rewrite Hs. reflexivity. }
  split; [| exact Hpos]. split.
  - intros Hne. unfold attach_link in Hne.
    destruct (import_object rt modname fullname) as [obj|] eqn:Ho;
      [| now contradiction Hne].
    cbn [source_anchor] in Hne.
    destruct (getsourcelines rt obj) as [e|[lines lineno]] eqn:Hs;
      [now contradiction Hne |].
    eauto.
  - intros (obj & lines & lineno & Ho & Hs).
    rewrite (Hpos _ _ _ Ho Hs).
    exact (append_child_neq _ tag cls attrs ch).
Qed.

(** ** What the docstring pass leaves alone *)

Section Frame.

Variable rt : runtime.
Variable cfg : config.
Variables url source_root : string.

Local Abbreviation pass := (link_tree rt cfg url source_root).

Lemma link_tree_children_lookup (tag : tagname) (cls : list string)
    (attrs : gmap string string) (ch : list node) (i : nat) (c : node) :
  ch !! i = Some c ->
  exists c',
    node_children (pass (Element tag cls attrs ch)) !! i = Some c' /\
    (c' = pass c \/
     exists modname fullname anchor,
       is_py_desc tag attrs = true /\
       link_target c = Some (modname, fullname) /\
       source_anchor rt (import_object rt modname fullname) = Some anchor /\
       c' = append_child
              (docstring_link cfg (docstring_path url source_root modname anchor))
              (pass c)).
Proof.
  intros Hc. rewrite link_tree_children.
  assert (Hpc : (pass <$> ch) !! i = Some (pass c))
    by (rewrite list_lookup_fmap, Hc; reflexivity).
  destruct (is_py_desc tag attrs).
  - rewrite (link_signodes_lookup _ _ _ _ _ _ _ _ Hpc).
    eexists. split; [reflexivity |].
    rewrite link_signode_eq.
    rewrite <- (same_head_link_target c (pass c)) by apply link_tree_same_head.
    destruct (link_target c) as [[modname fullname]|]; [| now left].
    case_bool_decide; [now left |]. cbn [snd].
    destruct (attach_link_cases rt cfg url source_root modname fullname (pass c))
      as [->|(anchor & Ha & ->)]; [now left |].
    right. exists modname, fullname, anchor. auto.
  - exists (pass c). split; [exact Hpc | now left].
Qed.

(** The node at a path after the pass: the pass of the node that was
    there, with one link appended if it is a signature that got one. *)
Lemma get_node_link_tree_cases (p : list nat) (t n : node) :
  get_node p t = Some n ->
  get_node p (pass t) = Some (pass n) \/
  exists modname fullname anchor,
    link_target n = Some (modname, fullname) /\
    source_anchor rt (import_object rt modname fullname) = Some anchor /\
    get_node p (pass t) =
    Some (append_child
            (docstring_link cfg (docstring_path url source_root modname anchor))
            (pass n)).
Proof.
  revert t. induction p as [|i p IH]; intros t H.
  - injection H as ->. now left.
  - destruct t as [data|tag cls attrs ch]; [discriminate |].
    cbn [get_node node_children] in H.
    destruct (ch !! i) as [c|] eqn:Hc; [| discriminate].
    destruct (link_tree_children_lookup tag cls attrs ch i c Hc)
      as (c' & Hc' & Hcase).
    cbn [get_node]. rewrite Hc'.
    destruct Hcase as [->|(m & f & anchor & _ & Ht & Ha & ->)]; [now apply IH |].
    destruct p as [|k p].
    + injection H as ->. right. exists m, f, anchor. auto.
    + destruct (IH c H) as [H'|(m' & f' & anchor' & Ht' & Ha' & H')].
      * left. now apply get_node_append_child.
      * right. exists m', f', anchor'. split; [assumption |].
        split; [assumption |]. now apply get_node_append_child.
Qed.

Lemma source_anchor_Some (o : option (pyobj rt)) (anchor : string) :
  source_anchor rt o = Some anchor ->
  exists obj lines lineno,
    o = Some obj /\ getsourcelines rt obj = Return (lines, lineno) /\
    anchor = "#cl-" +:+ PyStr.fmt_d lineno.
Proof.
  destruct o as [obj|]; [| discriminate]. cbn [source_anchor].
  destruct (getsourcelines rt obj) as [e|[lines lineno]] eqn:Hs; [discriminate |].
  intros H. injection H as <-. eauto 6.
Qed.

End Frame.

(** X4.  The docstring pass keeps every node where it is, with its tag,
    classes and attributes, and gives it at most one more child. *)
Theorem docstring_pass_keeps_nodes (rt : runtime) (cfg : config)
    (url source_root : string) (p : list nat) (t n : node) :
  get_node p t = Some n ->
  exists n',
    get_node p (docstring_links rt cfg url source_root t) = Some n' /\
    same_head n n' /\
    length (node_children n) <= length (node_children n') <=
    length (node_children n) + 1.
Proof.
  intros H. rewrite docstring_links_link_tree.
  pose proof (link_tree_same_head rt cfg url source_root n) as Hsame.
  pose proof (link_tree_children_length rt cfg url source_root n) as Hlen.
  destruct (get_node_link_tree_cases rt cfg url source_root p t n H)
    as [H'|(m & f & anchor & _ & _ & H')]; rewrite H'; eexists;
    (split; [reflexivity |]).
  - split; [assumption | lia].
  - split; [eapply same_head_trans; [eassumption | apply same_head_append_child] |].
    destruct (link_tree rt cfg url source_root n) as [data|tag cls attrs ch];
      cbn [append_child node_children] in *; [lia |].
    rewrite length_app. cbn. lia.
Qed.

Lemma docstring_pass_keeps_nodes_witness :
  exists n',
    get_node [0; 1; 0]
      (docstring_links Sample.rt Sample.cfg "u/" "lib/"
         (Sample.api_page [Sample.signature "pkg.spec" "fit"])) = Some n' /\
    same_head (Sample.signature "pkg.spec" "fit") n' /\
    length (node_children (Sample.signature "pkg.spec" "fit"))
    <= length (node_children n')
    <= length (node_children (Sample.signature "pkg.spec" "fit")) + 1.
Proof.
  apply (docstring_pass_keeps_nodes Sample.rt Sample.cfg "u/" "lib/" [0; 1; 0]
           (Sample.api_page [Sample.signature "pkg.spec" "fit"])
           (Sample.signature "pkg.spec" "fit")).
  vm_compute; reflexivity.
Defined.

(** X5.  A node that is not a signature with a non-empty module name is
    never given a link: after the pass over the tree it is what the pass
    makes of the node alone. *)
Theorem only_signatures_with_module_are_linked (rt : runtime) (cfg : config)
    (url source_root : string) (p : list nat) (t n : node) :
  get_node p t = Some n ->
  link_target n = None ->
  get_node p (docstring_links rt cfg url source_root t) =
  Some (docstring_links rt cfg url source_root n) /\
  length (node_children (docstring_links rt cfg url source_root n)) =
  length (node_children n).
Proof.
  intros H Ht. rewrite !docstring_links_link_tree.
  split; [| apply link_tree_children_length].
  destruct (get_node_link_tree_cases rt cfg url source_root p t n H)
    as [H'|(m & f & anchor & Hn & _)]; [exact H' | congruence].
Qed.

Lemma only_signatures_with_module_are_linked_witness :
  get_node [0; 1; 0]
    (docstring_links Sample.rt Sample.cfg "u/" "lib/"
       (Sample.api_page [Sample.bare_signature "fit"])) =
  Some (docstring_links Sample.rt Sample.cfg "u/" "lib/"
          (Sample.bare_signature "fit")) /\
  length (node_children
            (docstring_links Sample.rt Sample.cfg "u/" "lib/"
               (Sample.bare_signature "fit"))) =
  length (node_children (Sample.bare_signature "fit")).
Proof.
  apply (only_signatures_with_module_are_linked Sample.rt Sample.cfg "u/" "lib/"
           [0; 1; 0] (Sample.api_page [Sample.bare_signature "fit"])
           (Sample.bare_signature "fit")).
  - vm_compute; reflexivity.
  - reflexivity.
Defined.

(** X6.  The children of a node that is not a described object of the
    Python domain are never linked by that node's visit, signatures
    included: a described object of another domain, or a signature outside
    a described object, stays without link. *)
Theorem children_outside_py_desc_are_not_linked (rt : runtime) (cfg : config)
    (url source_root : string) (p : list nat) (t : node) (tag : tagname)
    (cls : list string) (attrs : gmap string string) (ch : list node)
    (i : nat) (c : node) :
  get_node p t = Some (Element tag cls attrs ch) ->
  tag <> desc \/ attrs !! "domain" <> Some "py" ->
  ch !! i = Some c ->
  get_node (p ++ [i]) (docstring_links rt cfg url source_root t) =
  Some (docstring_links rt cfg url source_root c).
Proof.
  intros H Hnot Hc. rewrite !docstring_links_link_tree, get_node_app.
  assert (Hpy : is_py_desc tag attrs = false).
  { unfold is_py_desc. destruct Hnot as [Hn|Hn].
    - now rewrite (bool_decide_eq_false_2 _ Hn).
    - rewrite (bool_decide_eq_false_2 _ Hn). apply andb_false_r. }
  assert (Hpc : node_children (link_tree rt cfg url source_root
                                 (Element tag cls attrs ch)) !! i
                = Some (link_tree rt cfg url source_root c)).
  { rewrite link_tree_children, Hpy, list_lookup_fmap, Hc. reflexivity. }
  destruct (get_node_link_tree_cases rt cfg url source_root p t _ H)
    as [H'|(m & f & anchor & _ & _ & H')]; rewrite H'; cbn [get_node].
  - now rewrite Hpc.
  - cbn [link_tree append_child node_children] in *.
    now rewrite (lookup_app_l_Some _ _ _ _ Hpc).
Qed.

Lemma children_outside_py_desc_are_not_linked_witness :
  get_node ([0] ++ [0])
    (docstring_links Sample.rt Sample.cfg "u/" "lib/"
       (Sample.page "/docs/api.rst"
          [Element desc [] {[ "domain" := "c" ]}
             [Sample.signature "pkg.spec" "fit"]])) =
  Some (docstring_links Sample.rt Sample.cfg "u/" "lib/"
          (Sample.signature "pkg.spec" "fit")).
Proof.
  apply (children_outside_py_desc_are_not_linked Sample.rt Sample.cfg "u/" "lib/"
           [0]
           (Sample.page "/docs/api.rst"
              [Element desc [] {[ "domain" := "c" ]}
                 [Sample.signature "pkg.spec" "fit"]])
           desc [] {[ "domain" := "c" ]} [Sample.signature "pkg.spec" "fit"]
           0 (Sample.signature "pkg.spec" "fit")).
  - vm_compute; reflexivity.
  - right. vm_compute. discriminate.
  - reflexivity.
Defined.

(** ** Running the docstring pass again *)

Section Again.

Variable rt : runtime.
Variable cfg : config.
Variables url source_root : string.

Local Abbreviation step := (link_signode rt cfg url source_root).
Local Abbreviation loop := (link_signodes rt cfg url source_root).
Local Abbreviation pass := (link_tree rt cfg url source_root).

Lemma link_tree_docstring_link (path : string) :
  pass (docstring_link cfg path) = docstring_link cfg path.
Proof. reflexivity. Qed.

Lemma link_signode_first (names : gset (option string)) (cls : list string)
    (attrs : gmap string string) (k : list node) (modname : string)
    (obj : pyobj rt) (lines : list string) (lineno : Z) :
  attrs !! "module" = Some modname ->
  modname <> "" ->
  attrs !! "fullname" ∉ names ->
  import_object rt modname (attrs !! "fullname") = Some obj ->
  getsourcelines rt obj = Return (lines, lineno) ->
  snd (step names (Element desc_signature cls attrs k)) =
  Element desc_signature cls attrs
    (k ++ [docstring_link cfg
             (docstring_path url source_root modname
                ("#cl-" +:+ PyStr.fmt_d lineno))]).
Proof.
  intros Hmod Hne Hnames Hobj Hsrc. cbn [link_signode]. rewrite Hmod.
  unfold PyStr.truthy at 1.
  destruct (String.eqb_spec modname "") as [?|_]; [contradiction |]. cbn [negb].
  rewrite bool_decide_eq_false_2 by assumption. cbn [snd].
  unfold attach_link. rewrite Hobj. cbn [source_anchor]. rewrite Hsrc.
  reflexivity.
Qed.

Lemma first_not_in_names (ch : list node) (i : nat) (f : option string) :
  (forall j sj m, j < i -> ch !! j = Some sj -> link_target sj <> Some (m, f)) ->
  f ∉ names_after ∅ (take i ch).
Proof.
  intros Hfirst. rewrite names_after_spec.
  intros [H|(j & sj & m & Hj & Ht)].
  - now apply not_elem_of_empty in H.
  - apply lookup_take_Some in Hj as [Hj Hlt]. exact (Hfirst j sj m Hlt Hj Ht).
Qed.

Lemma link_tree_twice_signature (t : node) (p : list nat) (dcls : list string)
    (dattrs : gmap string string) (ch : list node) (i : nat)
    (cls : list string) (attrs : gmap string string) (sch : list node)
    (modname : string) (obj : pyobj rt) (lines : list string) (lineno : Z) :
  get_node p t = Some (Element desc dcls dattrs ch) ->
  dattrs !! "domain" = Some "py" ->
  ch !! i = Some (Element desc_signature cls attrs sch) ->
  attrs !! "module" = Some modname ->
  modname <> "" ->
  (forall j sj m, j < i -> ch !! j = Some sj ->
                  link_target sj <> Some (m, attrs !! "fullname")) ->
  import_object rt modname (attrs !! "fullname") = Some obj ->
  getsourcelines rt obj = Return (lines, lineno) ->
  let link := docstring_link cfg
                (docstring_path url source_root modname
                   ("#cl-" +:+ PyStr.fmt_d lineno)) in
  get_node (p ++ [i]) (pass (pass t)) =
  Some (Element desc_signature cls attrs
          ((pass <$> (pass <$> sch)) ++ [link; link])).
Proof.
  intros Hdesc Hdom Hi Hmod Hne Hfirst Hobj Hsrc link.
  pose proof (first_not_in_names ch i _ Hfirst) as Hnot.
  pose proof (get_node_link_tree rt cfg url source_root _ _ _ _ _ Hdesc) as Hdesc1.
  cbn [link_tree] in Hdesc1. unfold is_py_desc in Hdesc1.
  rewrite Hdom, !bool_decide_eq_true_2 in Hdesc1 by reflexivity.
  cbn [andb] in Hdesc1.
  set (ch1 := loop ∅ (pass <$> ch)) in *.
  assert (Hsame : Forall2 same_head ch ch1).
  { eapply Forall2_trans; [| | apply link_signodes_same_head].
    - intros a b c. apply same_head_trans.
    - apply Forall2_fmap_r, Forall_Forall2_diag, Forall_forall.
      intros x _. apply link_tree_same_head. }
  assert (Hpass : Forall2 same_head ch (pass <$> ch)).
  { apply Forall2_fmap_r, Forall_Forall2_diag, Forall_forall.
    intros x _. apply link_tree_same_head. }
  assert (Hi1 : ch1 !! i =
                Some (Element desc_signature cls attrs ((pass <$> sch) ++ [link]))).
  { assert (Hpc : (pass <$> ch) !! i
                  = Some (pass (Element desc_signature cls attrs sch)))
      by (rewrite list_lookup_fmap, Hi; reflexivity).
    unfold ch1. rewrite (link_signodes_lookup _ _ _ _ _ _ _ _ Hpc).
    rewrite <- (names_after_same_head _ (take i ch))
      by (apply Forall2_take; exact Hpass).
    rewrite link_tree_signature.
    now rewrite (link_signode_first _ _ _ _ _ _ _ _ Hmod Hne Hnot Hobj Hsrc). }
  rewrite (get_node_signode rt cfg url source_root _ _ _ _ _ _ _ Hdesc1 Hdom Hi1).
  rewrite <- (names_after_same_head _ (take i ch))
    by (apply Forall2_take; exact Hsame).
  rewrite link_tree_signature.
  rewrite (link_signode_first _ _ _ _ _ _ _ _ Hmod Hne Hnot Hobj Hsrc).
  subst link. rewrite fmap_app. cbn [fmap list_fmap].
  rewrite link_tree_docstring_link, <- app_assoc. reflexivity.
Qed.

End Again.

(** X7.  The docstring pass does not look for a link it attached before:
    run a second time over its own result, it appends the same link once
    more to a signature that resolves. *)
Theorem second_pass_repeats_docstring_link (rt : runtime) (cfg : config)
    (url source_root : string) (t : node) (p : list nat) (dcls : list string)
    (dattrs : gmap string string) (ch : list node) (i : nat)
    (cls : list string) (attrs : gmap string string) (sch : list node)
    (modname : string) (obj : pyobj rt) (lines : list string) (lineno : Z) :
  let pass := docstring_links rt cfg url source_root in
  let link := docstring_link cfg
                (url +:+ source_root +:+ PyStr.replace "." "/" modname +:+
                 ".py" +:+ "#cl-" +:+ PyStr.fmt_d lineno) in
  get_node p t = Some (Element desc dcls dattrs ch) ->
  dattrs !! "domain" = Some "py" ->
  ch !! i = Some (Element desc_signature cls attrs sch) ->
  attrs !! "module" = Some modname ->
  modname <> "" ->
  (forall j sj m, j < i -> ch !! j = Some sj ->
                  link_target sj <> Some (m, attrs !! "fullname")) ->
  import_object rt modname (attrs !! "fullname") = Some obj ->
  getsourcelines rt obj = Return (lines, lineno) ->
  get_node (p ++ [i]) (pass (pass t)) =
  Some (Element desc_signature cls attrs
          ((pass <$> (pass <$> sch)) ++ [link; link])).
Proof.
  intros pass link Hdesc Hdom Hi Hmod Hne Hfirst Hobj Hsrc. subst pass.
  rewrite !docstring_links_link_tree, !docstring_links_fmap.
  exact (link_tree_twice_signature rt cfg url source_root t p dcls dattrs ch i
           cls attrs sch modname obj lines lineno
           Hdesc Hdom Hi Hmod Hne Hfirst Hobj Hsrc).
Qed.

Lemma second_pass_repeats_docstring_link_witness :
  let pass := docstring_links Sample.rt Sample.cfg "u/" "lib/" in
  let link := docstring_link Sample.cfg
                ("u/" +:+ "lib/" +:+ PyStr.replace "." "/" "pkg.spec" +:+
                 ".py" +:+ "#cl-" +:+ PyStr.fmt_d 42) in
  get_node ([0; 1] ++ [0])
    (pass (pass (Sample.api_page [Sample.signature "pkg.spec" "fit"]))) =
  Some (Element desc_signature []
          (<[ "module" := "pkg.spec" ]> {[ "fullname" := "fit" ]})
          ((pass <$> (pass <$> [Text "fit"])) ++ [link; link])).
Proof.
  apply (second_pass_repeats_docstring_link Sample.rt Sample.cfg "u/" "lib/"
           (Sample.api_page [Sample.signature "pkg.spec" "fit"])
           [0; 1] [] {[ "domain" := "py" ]}
           [Sample.signature "pkg.spec" "fit"] 0
           [] (<[ "module" := "pkg.spec" ]> {[ "fullname" := "fit" ]})
           [Text "fit"] "pkg.spec" (Sample.Func 42) ["def fit():"] 42%Z).
  - vm_compute; reflexivity.
  - vm_compute; reflexivity.
  - reflexivity.
  - vm_compute; reflexivity.
  - discriminate.
  - intros j sj m Hj. lia.
  - vm_compute; reflexivity.
  - reflexivity.
Defined.

(** ** Root normalization, once more *)

(** X8.  Normalizing a root twice is normalizing it once: a normalized
    root can be configured as it is. *)
Theorem normalize_root_idempotent (root : string) :
  normalize_root (normalize_root root) = normalize_root root.
Proof.
  destruct (normalize_root_cases root) as [(Hne & Hend & Heq)|[Hcase Heq]].
  - rewrite Heq.
    destruct (normalize_root_cases (root +:+ "/")) as [(_ & Hend' & _)|[_ H]];
      [| exact H].
    assert (PyStr.endswith (root +:+ "/") "/" = true)
      by (apply endswith_spec; eauto).
    congruence.
  - rewrite Heq.
    destruct (normalize_root_cases root) as [(_ & _ & H)|[_ H]]; congruence.
Qed.

(** ** Two runs of the callback *)

Section TwoRuns.

Variable rt : runtime.
Variable app : application.

Local Abbreviation cfg := (app_config app).
Local Abbreviation url := (base_url (edit_on_bitbucket_project (app_config app))).
Local Abbreviation doc_root :=
  (normalize_root (edit_on_bitbucket_doc_root (app_config app))).
Local Abbreviation source_root :=
  (normalize_root (edit_on_bitbucket_source_root (app_config app))).
Local Abbreviation pass := (link_tree rt (app_config app) url source_root).

Lemma link_tree_page_para (c : config) (path : string) :
  pass (page_para c path) = page_para c path.
Proof.
  unfold page_para, text_children.
  destruct (String.eqb (edit_on_bitbucket_page_message c) ""); reflexivity.
Qed.

Lemma link_tree_section (cs : list string) (a : gmap string string)
    (l : list node) :
  pass (Element section cs a l) = Element section cs a (pass <$> l).
Proof. reflexivity. Qed.

Lemma link_tree_tail (tag : tagname) (cls : list string)
    (attrs : gmap string string) (ch : list node) (tail : node) :
  link_target tail = None ->
  exists ch',
    length ch' = length ch /\
    pass (Element tag cls attrs (ch ++ [tail])) =
    Element tag cls attrs (ch' ++ [pass tail]).
Proof.
  intros Ht.
  pose proof (get_node_link_tree_cases rt cfg url source_root [length ch]
                (Element tag cls attrs (ch ++ [tail])) tail) as Hcase.
  cbn [get_node node_children] in Hcase.
  rewrite list_lookup_middle in Hcase by reflexivity.
  destruct (Hcase eq_refl) as [H|(m & f & anchor & Hn & _)]; [| congruence].
  pose proof (link_tree_children_length rt cfg url source_root
                (Element tag cls attrs (ch ++ [tail]))) as Hlen.
  cbn [link_tree] in *.
  set (ch1 := if is_py_desc tag attrs
              then link_signodes rt cfg url source_root ∅ (pass <$> ch ++ [tail])
              else pass <$> ch ++ [tail]) in *.
  cbn [node_children] in H, Hlen. rewrite length_app in Hlen. cbn in Hlen.
  destruct (ch1 !! length ch) as [x|] eqn:Hx; [| discriminate].
  injection H as ->.
  exists (take (length ch) ch1). split.
  - rewrite length_take. lia.
  - f_equal. rewrite <- (take_drop (length ch) ch1) at 1. f_equal.
    apply list_eq. intros [|k].
    + rewrite lookup_drop, Nat.add_0_r. exact Hx.
    + rewrite lookup_drop. cbn. apply lookup_ge_None. lia.
Qed.

Lemma two_runs_new_section (tag : tagname) (cls : list string)
    (attrs : gmap string string) (init : list node) (ltag : tagname)
    (lcls : list string) (lattrs : gmap string string) (lch : list node)
    (doc_path : string) :
  let t := Element tag cls attrs (init ++ [Element ltag lcls lattrs lch]) in
  let para := page_para cfg (url +:+ doc_root +:+ doc_path) in
  edit_on_bitbucket_project cfg <> "REQUIRED" ->
  relpath rt (attrs !! "source") (srcdir app) = Return doc_path ->
  re_match (edit_on_bitbucket_skip_regex cfg) doc_path = false ->
  "edit-section" ∉ lcls ->
  exists t1 t2,
    doctree_read rt app t = (Return tt, t1) /\
    doctree_read rt app t1 = (Return tt, t2) /\
    length (node_children t2) = S (length (node_children t)) /\
    last (node_children t2) =
    Some (Element section ["edit-section"] ∅ [para; para]).
Proof.
  intros t para Hp Hrel Hskip Hin.
  pose proof (page_edit_link_new_section rt app url doc_root tag cls attrs init
                ltag lcls lattrs lch doc_path Hrel Hskip Hin) as Hpage.
  fold para in Hpage.
  assert (Hpara : pass para = para) by apply link_tree_page_para.
  destruct (link_tree_tail tag cls attrs (init ++ [Element ltag lcls lattrs lch])
              (edit_section para) eq_refl) as (ch1 & Hlen1 & Hpass1).
  unfold edit_section in Hpass1 at 2. rewrite link_tree_section in Hpass1.
  cbn [fmap list_fmap] in Hpass1. rewrite Hpara in Hpass1.
  change (append_classes [] ["edit-section"]) with ["edit-section"] in Hpass1.
  assert (Hread1 : doctree_read rt app t =
                   (Return tt,
                    Element tag cls attrs
                      (ch1 ++ [Element section ["edit-section"] ∅ [para]]))).
  { rewrite doctree_read_unfold by assumption. subst t. rewrite Hpage.
    now rewrite Hpass1. }
  pose proof (page_edit_link_existing_section rt app url doc_root tag cls attrs
                ch1 section ["edit-section"] ∅ [para] doc_path Hrel Hskip) as Hpage2.
  fold para in Hpage2. cbn [Datatypes.app] in Hpage2.
  destruct (link_tree_tail tag cls attrs ch1
              (Element section ["edit-section"] ∅ [para; para]) eq_refl)
    as (ch2 & Hlen2 & Hpass2).
  rewrite link_tree_section in Hpass2. cbn [fmap list_fmap] in Hpass2.
  rewrite !Hpara in Hpass2.
  eexists _, _. split; [exact Hread1 |]. split.
  { rewrite doctree_read_unfold by assumption.
    rewrite Hpage2 by (apply list_elem_of_singleton; reflexivity).
    rewrite Hpass2. reflexivity. }
  cbn [node_children]. split.
  - subst t. cbn [node_children]. rewrite !length_app in *. cbn in *. lia.
  - apply last_snoc.
Qed.

End TwoRuns.

(** X9.  Two runs of the callback over a page that had no edit section
    leave one section more than the page had: the second run puts its
    paragraph into the section the first run appended, which then holds
    the same paragraph twice. *)
Theorem two_runs_make_one_edit_section (rt : runtime) (app : application)
    (tag : tagname) (cls : list string) (attrs : gmap string string)
    (init : list node) (ltag : tagname) (lcls : list string)
    (lattrs : gmap string string) (lch : list node) (doc_path : string) :
  let cfg := app_config app in
  let url := base_url (edit_on_bitbucket_project cfg) in
  let doc_root := normalize_root (edit_on_bitbucket_doc_root cfg) in
  let t := Element tag cls attrs (init ++ [Element ltag lcls lattrs lch]) in
  let para := page_para cfg (url +:+ doc_root +:+ doc_path) in
  edit_on_bitbucket_project cfg <> "REQUIRED" ->
  relpath rt (attrs !! "source") (srcdir app) = Return doc_path ->
  re_match (edit_on_bitbucket_skip_regex cfg) doc_path = false ->
  "edit-section" ∉ lcls ->
  exists t1 t2,
    doctree_read rt app t = (Return tt, t1) /\
    doctree_read rt app t1 = (Return tt, t2) /\
    length (node_children t2) = S (length (node_children t)) /\
    last (node_children t2) =
    Some (Element section ["edit-section"] ∅ [para; para]).
Proof.
  intros cfg url doc_root t para. apply two_runs_new_section.
Qed.

Lemma two_runs_make_one_edit_section_witness :
  let t := Sample.page "/docs/index.rst" [Sample.heading "Index"] in
  let para := page_para Sample.cfg
                (base_url "user/proj" +:+ normalize_root "" +:+ "index.rst") in
  exists t1 t2,
    doctree_read Sample.rt Sample.app t = (Return tt, t1) /\
    doctree_read Sample.rt Sample.app t1 = (Return tt, t2) /\
    length (node_children t2) = S (length (node_children t)) /\
    last (node_children t2) =
    Some (Element section ["edit-section"] ∅ [para; para]).
Proof.
  apply (two_runs_make_one_edit_section Sample.rt Sample.app
           document [] {[ "source" := "/docs/index.rst" ]}
           [] section [] empty [Text "Index"] "index.rst").
  - discriminate.
  - vm_compute; reflexivity.
  - vm_compute; reflexivity.
  - apply not_elem_of_nil.
Defined.

(** ** The configuration [setup] registers *)

(** X10.  With the project identifier set and every other value as
    [setup] registers it, a page is skipped exactly when its path begins
    with an underscore.  A page that is not skipped and ends in an element
    without ['edit-section'] gets its link in a new section, with the URL
    [http://bitbucket.org/<project>/src/tip/doc/<path>], and the docstring
    links are built under [lib/]. *)
Theorem default_configuration_links (rt : runtime) (project sdir : string)
    (tag : tagname) (cls : list string) (attrs : gmap string string)
    (init : list node) (ltag : tagname) (lcls : list string)
    (lattrs : gmap string string) (lch : list node) (doc_path : string) :
  let cfg := setup_with_project project in
  let app := {| app_config := cfg; srcdir := sdir |} in
  let url := "http://bitbucket.org/" +:+ project +:+ "/src/tip/" in
  let t := Element tag cls attrs (init ++ [Element ltag lcls lattrs lch]) in
  project <> "REQUIRED" ->
  relpath rt (attrs !! "source") sdir = Return doc_path ->
  ((exists q, doc_path = String "_" q) ->
   doctree_read rt app t = (Return tt, docstring_links rt cfg url "lib/" t)) /\
  ((forall q, doc_path <> String "_" q) ->
   "edit-section" ∉ lcls ->
   doctree_read rt app t =
   (Return tt,
    docstring_links rt cfg url "lib/"
      (Element tag cls attrs
         ((init ++ [Element ltag lcls lattrs lch]) ++
          [edit_section
             (page_para cfg
                ("http://bitbucket.org/" +:+ project +:+ "/src/tip/doc/" +:+
                 doc_path))])))).
Proof.
  intros cfg app url t Hp Hrel. split.
  - intros Hq. apply default_skip_spec in Hq.
    rewrite doctree_read_unfold, docstring_links_link_tree by assumption.
    now rewrite (page_edit_link_skip rt app _ _ t doc_path Hrel Hq).
  - intros Hq Hin.
    assert (Hskip : re_match (edit_on_bitbucket_skip_regex cfg) doc_path = false).
    { destruct (re_match (edit_on_bitbucket_skip_regex cfg) doc_path) eqn:Hm;
        [| reflexivity].
      apply default_skip_spec in Hm as [q Hm]. now contradiction (Hq q). }
    rewrite doctree_read_unfold, docstring_links_link_tree by assumption.
    rewrite (page_edit_link_new_section rt app _ _ tag cls attrs init ltag lcls
               lattrs lch doc_path Hrel Hskip Hin).
    do 6 f_equal. unfold base_url. cbn [app_config cfg edit_on_bitbucket_project
      edit_on_bitbucket_doc_root setup_with_project setup].
    change (normalize_root "doc") with "doc/".
    rewrite !append_assoc. reflexivity.
Qed.

Lemma default_configuration_links_witness :
  let cfg := setup_with_project "user/proj" in
  let app := {| app_config := cfg; srcdir := "/docs" |} in
  let t := Sample.page "/docs/index.rst" [Sample.heading "Index"] in
  ((exists q, "index.rst" = String "_" q) ->
   doctree_read Sample.rt app t =
   (Return tt,
    docstring_links Sample.rt cfg
      ("http://bitbucket.org/" +:+ "user/proj" +:+ "/src/tip/") "lib/" t)) /\
  ((forall q, "index.rst" <> String "_" q) ->
   "edit-section" ∉ @nil string ->
   doctree_read Sample.rt app t =
   (Return tt,
    docstring_links Sample.rt cfg
      ("http://bitbucket.org/" +:+ "user/proj" +:+ "/src/tip/") "lib/"
      (Element document [] {[ "source" := "/docs/index.rst" ]}
         (([] ++ [Element section [] empty [Text "Index"]]) ++
          [edit_section
             (page_para cfg
                ("http://bitbucket.org/" +:+ "user/proj" +:+ "/src/tip/doc/" +:+
                 "index.rst"))])))).
Proof.
  apply (default_configuration_links Sample.rt "user/proj" "/docs"
           document [] {[ "source" := "/docs/index.rst" ]}
           [] section [] empty [Text "Index"] "index.rst").
  - discriminate.
  - vm_compute; reflexivity.
Defined.

(** ** Failures of the callback *)

Lemma doctree_read_raise_unchanged_witness :
  snd (doctree_read Sample.rt Sample.app Sample.empty_page) = Sample.empty_page.
Proof.
  apply (doctree_read_raise_unchanged Sample.rt Sample.app Sample.empty_page
           (snd (doctree_read Sample.rt Sample.app Sample.empty_page))
           IndexError).
  vm_compute; reflexivity.
Defined.

Lemma page_link_in_new_section_witness :
  doctree_read Sample.rt Sample.app
    (Element document [] {[ "source" := "/docs/index.rst" ]}
       ([] ++ [Element section [] empty [Text "Index"]])) =
  (Return tt,
   docstring_links Sample.rt Sample.cfg (base_url "user/proj")
     (normalize_root "lib")
     (Element document [] {[ "source" := "/docs/index.rst" ]}
        (([] ++ [Element section [] empty [Text "Index"]]) ++
         [edit_section
            (page_para Sample.cfg
               (base_url "user/proj" +:+ normalize_root "" +:+ "index.rst"))]))).
Proof.
  apply (page_link_in_new_section Sample.rt Sample.app
           document [] {[ "source" := "/docs/index.rst" ]}
           [] section [] empty [Text "Index"] "index.rst").
  - discriminate.
  - vm_compute; reflexivity.
  - vm_compute; reflexivity.
  - apply not_elem_of_nil.
Defined.

Lemma page_edit_link_runtime (rt1 rt2 : runtime) (app : application)
    (u d : string) (t : node) :
  relpath rt1 (node_get "source" t) (srcdir app) =
  relpath rt2 (node_get "source" t) (srcdir app) ->
  page_edit_link rt1 app u d t = page_edit_link rt2 app u d t.
Proof.
  intros H. unfold page_edit_link, bind, get_tree, lift. now rewrite H.
Qed.

(** X14.  Whether the callback returns or raises, and what it raises,
    does not depend on what importing, attribute lookup and source
    inspection do: two runtimes that agree on the relative path of the
    document give the same outcome, and trees with the same number of
    children. *)
Theorem outcome_independent_of_resolution (rt1 rt2 : runtime)
    (app : application) (t : node) :
  relpath rt1 (node_get "source" t) (srcdir app) =
  relpath rt2 (node_get "source" t) (srcdir app) ->
  fst (doctree_read rt1 app t) = fst (doctree_read rt2 app t) /\
  length (node_children (snd (doctree_read rt1 app t))) =
  length (node_children (snd (doctree_read rt2 app t))).
Proof.
  intros H.
  destruct (String.eqb_spec (edit_on_bitbucket_project (app_config app)) "REQUIRED")
    as [Heq|Hne].
  { rewrite !(doctree_read_sentinel _ _ _ Heq). auto. }
  rewrite !doctree_read_unfold by assumption.
  rewrite (page_edit_link_runtime rt1 rt2 app _ _ t H).
  destruct (page_edit_link rt2 app _ _ t) as [[e|[]] t']; cbn [fst snd];
    [auto |].
  split; [reflexivity |]. now rewrite !link_tree_children_length.
Qed.

Lemma outcome_independent_of_resolution_witness :
  let t := Sample.api_page [Sample.signature "pkg.spec" "fit"] in
  fst (doctree_read Sample.rt Sample.app t) =
  fst (doctree_read offline_rt Sample.app t) /\
  length (node_children (snd (doctree_read Sample.rt Sample.app t))) =
  length (node_children (snd (doctree_read offline_rt Sample.app t))).
Proof.
  apply (outcome_independent_of_resolution Sample.rt offline_rt Sample.app
           (Sample.api_page [Sample.signature "pkg.spec" "fit"])).
  reflexivity.
Defined.

(** ** Links are attached to resolved symbols only *)

(** X16.  A node that the pass over the tree changes beyond what the pass
    makes of the node alone is a signature with a non-empty module name
    whose symbol resolved to an object with a known source line, and the
    change is the link for that module and line, appended last. *)
Theorem attached_link_means_resolved (rt : runtime) (cfg : config)
    (url source_root : string) (p : list nat) (t n n' : node) :
  let pass := docstring_links rt cfg url source_root in
  get_node p t = Some n ->
  get_node p (pass t) = Some n' ->
  n' <> pass n ->
  exists modname fullname obj lines lineno,
    link_target n = Some (modname, fullname) /\
    import_object rt modname fullname = Some obj /\
    getsourcelines rt obj = Return (lines, lineno) /\
    n' = append_child
           (docstring_link cfg
              (url +:+ source_root +:+ PyStr.replace "." "/" modname +:+
               ".py" +:+ "#cl-" +:+ PyStr.fmt_d lineno))
           (pass n).
Proof.
  intros pass H H' Hne. subst pass. rewrite !docstring_links_link_tree in *.
  destruct (get_node_link_tree_cases rt cfg url source_root p t n H)
    as [Hc|(m & f & anchor & Ht & Ha & Hc)]; rewrite Hc in H';
    injection H' as <-; [now contradiction Hne |].
  apply source_anchor_Some in Ha as (obj & lines & lineno & Ho & Hs & ->).
  exists m, f, obj, lines, lineno. auto.
Qed.

Lemma attached_link_means_resolved_witness :
  let pass := docstring_links Sample.rt Sample.cfg "u/" "lib/" in
  let n := Sample.signature "pkg.spec" "fit" in
  exists modname fullname obj lines lineno,
    link_target n = Some (modname, fullname) /\
    import_object Sample.rt modname fullname = Some obj /\
    getsourcelines Sample.rt obj = Return (lines, lineno) /\
    append_child (docstring_link Sample.cfg "u/lib/pkg/spec.py#cl-42") (pass n) =
    append_child
      (docstring_link Sample.cfg
         ("u/" +:+ "lib/" +:+ PyStr.replace "." "/" modname +:+
          ".py" +:+ "#cl-" +:+ PyStr.fmt_d lineno))
      (pass n).
Proof.
  apply (attached_link_means_resolved Sample.rt Sample.cfg "u/" "lib/" [0; 1; 0]
           (Sample.api_page [Sample.signature "pkg.spec" "fit"])
           (Sample.signature "pkg.spec" "fit")).
  - vm_compute; reflexivity.
  - vm_compute; reflexivity.
  - intros H. apply (f_equal (fun x => length (node_children x))) in H.
    vm_compute in H. discriminate H.
Defined.

(** X15.  A signature without a ['fullname'] attribute never gets a link,
    wherever it stands and whatever its module is: [None.split] raises
    inside [import_object]. *)
Theorem signature_without_fullname_gets_no_link (rt : runtime) (cfg : config)
    (url source_root : string) (p : list nat) (t : node) (cls : list string)
    (attrs : gmap string string) (sch : list node) :
  let pass := docstring_links rt cfg url source_root in
  get_node p t = Some (Element desc_signature cls attrs sch) ->
  attrs !! "fullname" = None ->
  get_node p (pass t) = Some (Element desc_signature cls attrs (pass <$> sch)).
Proof.
  intros pass H Hf. subst pass.
  rewrite docstring_links_link_tree, docstring_links_fmap.
  destruct (get_node_link_tree_cases rt cfg url source_root p t _ H)
    as [Hc|(m & f & anchor & Ht & Ha & _)]; [exact Hc |].
  exfalso. cbn [link_target] in Ht.
  destruct (attrs !! "module") as [m'|]; [| discriminate].
  destruct (PyStr.truthy m'); [| discriminate].
  injection Ht as <- <-. rewrite Hf in Ha. unfold import_object in Ha.
  destruct (py_import rt m'); discriminate.
Qed.

Lemma signature_without_fullname_gets_no_link_witness :
  let pass := docstring_links Sample.rt Sample.cfg "u/" "lib/" in
  get_node [0; 1; 0]
    (pass (Sample.api_page
             [Element desc_signature [] {[ "module" := "pkg.spec" ]} []])) =
  Some (Element desc_signature [] {[ "module" := "pkg.spec" ]} (pass <$> [])).
Proof.
  apply (signature_without_fullname_gets_no_link Sample.rt Sample.cfg "u/" "lib/"
           [0; 1; 0]
           (Sample.api_page
              [Element desc_signature [] {[ "module" := "pkg.spec" ]} []])
           [] {[ "module" := "pkg.spec" ]} []).
  - vm_compute; reflexivity.
  - reflexivity.
Defined.
